(** * cli-support-js: the CLI application dispatcher

    A shallow embedding of [lib/cli-application.js]: the start-up wrapper
    [start]/[doStart], the context initialiser, the REPL evaluator and
    the dispatcher [main], with the properties the specification states
    about them.

    Conventions of the embedding.
    - A JavaScript string is a [string]; its characters are the code
      units below 256, on which [toLowerCase] and [trim] act as
      ECMAScript defines them.
    - A JavaScript object used as a record of properties (the
      configuration) is a [gmap string JsVal]; a missing key reads as
      [undefined].
    - A thrown value is an error object, [JsError].  A call that may
      throw returns [JsError + A].
    - Side effects (log-sink calls, console output, calls into the
      collaborators) are recorded, in program order, in a list of
      [Event]s; an [async] call that is awaited is an ordinary call.
    - The collaborators whose code is not part of [cli-application.js]
      ([CliOptions], [CliHelp], [CliLogger], the command classes) are the
      fields of an [App]. *)

From Stdlib Require Import ZArith Ascii String.
From stdpp Require Import gmap strings list pretty.

Open Scope string_scope.
Open Scope Z_scope.
Open Scope list_scope.

(* ===================================================================== *)
(** ** JavaScript values and strings *)

Module Js.

(** The values a configuration property holds. *)
Inductive JsVal :=
| VNull
| VBool (b : bool)
| VNum (z : Z)
| VStr (s : string).

(** ToBoolean of a property read; [None] is [undefined]. *)
Definition truthy (v : option JsVal) : bool :=
  match v with
  | None => false
  | Some VNull => false
  | Some (VBool b) => b
  | Some (VNum z) => negb (z =? 0)
  | Some (VStr s) => negb (String.eqb s "")
  end.

(** An error object, with the properties the handlers read. *)
Record JsError := {
  name : string;
  message : string;
  stack : string;
  errno : option Z;
  exitCode : option Z
}.

Definition between (lo hi : N) (c : ascii) : bool :=
  ((lo <=? N_of_ascii c) && (N_of_ascii c <=? hi))%N.

(** [String.prototype.toLowerCase] on one code unit below 256: the
    letters A-Z and the Latin-1 capitals (U+00C0-U+00DE, but not the
    multiplication sign U+00D7) move up by 32. *)
Definition lowerChar (c : ascii) : ascii :=
  if between 65 90 c
     || (between 192 222 c && negb (N_of_ascii c =? 215)%N)
  then ascii_of_N (N_of_ascii c + 32)
  else c.

Fixpoint toLowerCase (s : string) : string :=
  match s with
  | EmptyString => EmptyString
  | String c r => String (lowerChar c) (toLowerCase r)
  end.

(** White space and line terminators below 256: TAB, LF, VT, FF, CR,
    SP and NBSP. *)
Definition isSpace (c : ascii) : bool :=
  between 9 13 c || (N_of_ascii c =? 32)%N || (N_of_ascii c =? 160)%N.

Fixpoint trimStart (s : string) : string :=
  match s with
  | EmptyString => EmptyString
  | String c r => if isSpace c then trimStart r else s
  end.

Fixpoint trimEnd (s : string) : string :=
  match s with
  | EmptyString => EmptyString
  | String c r =>
      match trimEnd r with
      | EmptyString => if isSpace c then EmptyString else String c EmptyString
      | r' => String c r'
      end
  end.

(** [String.prototype.trim]. *)
Definition trim (s : string) : string := trimEnd (trimStart s).

(** [s.split(/\s+/)]: [cur] is the piece being read, reversed;
    [inSep] tells that the previous character was white space. *)
Fixpoint splitSpacesFrom (cur : string) (inSep : bool) (s : string)
  : list string :=
  match s with
  | EmptyString => [String.rev cur]
  | String c r =>
      if isSpace c then
        if inSep then splitSpacesFrom cur true r
        else String.rev cur :: splitSpacesFrom EmptyString true r
      else splitSpacesFrom (String c cur) false r
  end.

Definition splitSpaces (s : string) : list string :=
  splitSpacesFrom EmptyString false s.

(** [s.split('.')[0]]: the part before the first dot. *)
Fixpoint beforeDot (s : string) : string :=
  match s with
  | EmptyString => EmptyString
  | String c r =>
      if (N_of_ascii c =? 46)%N then EmptyString
      else String c (beforeDot r)
  end.

(** [a.join(' ')]. *)
Definition joinSpace (l : list string) : string := String.concat " " l.

End Js.
Export Js.

(* ===================================================================== *)
(** ** The application class, [lib/cli-application.js] *)

Module CliApplication.

(** The methods of the log sink. *)
Inductive LogMethod :=
| LTrace | LDebug | LVerbose | LInfo | LWarn | LError | LAlways.

(** What the code does to the outside, in program order. *)
Inductive Event :=
| Log (m : LogMethod) (msg : string)     (* log.<m>(msg) *)
| ConsoleLog (s : string)                (* console.log(s) *)
| ConsoleError (s : string)              (* console.error(s) *)
| OutputMainHelp                         (* help.outputMainHelp(...) *)
| FindCommandClass (cmds : list string)  (* CliOptions.findCommandClass *)
| NewCommand                             (* new CmdDerivedClass(context) *)
| RunCommand (args : list string)        (* cmdImpl.run(args) *)
| NewLogger (v : option JsVal)           (* new CliLogger(console, v) *)
| SetLogLevel (v : option JsVal)         (* log.level = v *)
| ReplStart (prompt : string)            (* repl.start({ prompt, ... }) *)
| Listen (port : JsVal)                  (* net.createServer(...).listen *)
| ReplCallback (reason : option JsError) (* callback(null | reason) *).

Definition newline : string := String (ascii_of_N 10) EmptyString.

(** What [console.log] and [console.error] write: the text and a line
    terminator. *)
Definition stdoutOf (e : Event) : string :=
  match e with
  | ConsoleLog s => s +:+ newline
  | _ => EmptyString
  end.

Definition stderrOf (e : Event) : string :=
  match e with
  | ConsoleError s => s +:+ newline
  | _ => EmptyString
  end.

(** The text the console calls of a run put on each stream (the log
    sink writes through its own threshold and is not part of it). *)
Definition consoleStdout (t : list Event) : string :=
  foldr (λ e rest, stdoutOf e +:+ rest) "" t.

Definition consoleStderr (t : list Event) : string :=
  foldr (λ e rest, stderrOf e +:+ rest) "" t.

(** The parsed [package.json]. *)
Record Package := {
  version : string;
  description : string
}.

(** The context object; a property not yet assigned is [None] (or
    empty). *)
Record Context := {
  programName : string;
  cmdPath : option string;
  processCwd : string;
  processArgv : list string;
  ctxRootPath : option string;
  package : option Package;
  config : gmap string JsVal;
  commands : option (list string);
  fullCommands : option (list string)
}.

(** [vm.createContext()]. *)
Definition emptyContext : Context :=
  {| programName := ""; cmdPath := None; processCwd := "";
     processArgv := []; ctxRootPath := None; package := None;
     config := ∅; commands := None; fullCommands := None |}.

(** The process, the static properties of the class and the context
    object at hand.  [Self.config] and [Self.log] are further names of
    the context's configuration and of a logger; nothing here reads
    them back, so they have no field. *)
Record World := {
  procArgv : list string;          (* process.argv *)
  procCwd : string;                (* process.cwd() *)
  isInitialised : bool;            (* Self.isInitialised *)
  rootPath : option string;        (* Self.rootPath *)
  selfProgramName : string;        (* Self.programName *)
  context : Context
}.

(** How a call ends: it returns, it throws, or the process exits. *)
Inductive Completion (A : Type) :=
| Normal (a : A)
| Throw (e : JsError)
| Exit (code : Z).
Arguments Normal {A} a.
Arguments Throw {A} e.
Arguments Exit {A} code.

(** A command class: its constructor may throw, its [run] returns an
    exit code or throws.  Both see the context; what they write to it
    is not modelled. *)
Record CmdClass := {
  construct : Context -> option JsError;
  run : Context -> list string -> JsError + Z
}.

(** The object [findCommandClass] returns; [CmdClass] is [None] when
    the property holds no constructor. *)
Record Found := {
  foundCmdClass : option CmdClass;
  foundFullCommands : list string
}.

(** The collaborators. *)
Record App := {
  className : string;                      (* Self.name *)
  basename : string -> string;             (* path.basename *)
  inspect : gmap string JsVal -> string;   (* util.inspect *)
  (* the derived class's static initialiser: the root path it sets *)
  doInitialise : JsError + option string;
  readPackageJson : option string -> JsError + Package;
  (* CliOptions.parseOptions(args, config): the configuration as the
     call leaves it; the list it returns is not used here *)
  parseOptions :
    list string -> gmap string JsVal -> JsError + gmap string JsVal;
  (* CliOptions.findCommandClass(cmds, rootPath, CliCommand) *)
  findCommandClass : list string -> option string -> JsError + Found
}.

(** *** The monad of the methods: state, trace and completion *)

Definition M (A : Type) : Type :=
  World -> World * list Event * Completion A.

#[global] Instance M_ret : MRet M := λ A a w, (w, [], Normal a).

#[global] Instance M_bind : MBind M := λ A B k m w,
  match m w with
  | (w1, t1, Normal a) =>
      match k a w1 with (w2, t2, r) => (w2, t1 ++ t2, r) end
  | (w1, t1, Throw e) => (w1, t1, Throw e)
  | (w1, t1, Exit c) => (w1, t1, Exit c)
  end.

Definition emit (e : Event) : M unit := λ w, (w, [e], Normal tt).
Definition emitAll (t : list Event) : M unit := λ w, (w, t, Normal tt).
Definition throw {A} (e : JsError) : M A := λ w, (w, [], Throw e).
Definition processExit {A} (code : Z) : M A := λ w, (w, [], Exit code).
Definition getWorld : M World := λ w, (w, [], Normal w).
Definition getContext : M Context := λ w, (w, [], Normal (context w)).
Definition modify (f : World -> World) : M unit := λ w, (f w, [], Normal tt).

(** A call into a collaborator that returns or throws. *)
Definition call {A} (r : JsError + A) : M A :=
  match r with
  | inl e => throw e
  | inr a => mret a
  end.

(** [try { m } catch (err) { h err }]; an exit is not caught. *)
Definition tryCatch {A} (m : M A) (h : JsError -> M A) : M A := λ w,
  match m w with
  | (w1, t1, Throw e) =>
      match h e w1 with (w2, t2, r) => (w2, t1 ++ t2, r) end
  | r => r
  end.

(** Assignments to the context's properties. *)
Definition withContext (f : Context -> Context) (w : World) : World :=
  {| procArgv := procArgv w; procCwd := procCwd w;
     isInitialised := isInitialised w; rootPath := rootPath w;
     selfProgramName := selfProgramName w;
     context := f (context w) |}.

Definition setConfig (cfg : gmap string JsVal) (c : Context) : Context :=
  {| programName := programName c; cmdPath := cmdPath c;
     processCwd := processCwd c; processArgv := processArgv c;
     ctxRootPath := ctxRootPath c; package := package c;
     config := cfg; commands := commands c;
     fullCommands := fullCommands c |}.

Definition setCommands (cmds : list string) (c : Context) : Context :=
  {| programName := programName c; cmdPath := cmdPath c;
     processCwd := processCwd c; processArgv := processArgv c;
     ctxRootPath := ctxRootPath c; package := package c;
     config := config c; commands := Some cmds;
     fullCommands := fullCommands c |}.

Definition setFullCommands (full : list string) (c : Context) : Context :=
  {| programName := programName c; cmdPath := cmdPath c;
     processCwd := processCwd c; processArgv := processArgv c;
     ctxRootPath := ctxRootPath c; package := package c;
     config := config c; commands := commands c;
     fullCommands := Some full |}.

Definition setPackage (p : Package) (c : Context) : Context :=
  {| programName := programName c; cmdPath := cmdPath c;
     processCwd := processCwd c; processArgv := processArgv c;
     ctxRootPath := ctxRootPath c; package := Some p;
     config := config c; commands := commands c;
     fullCommands := fullCommands c |}.

(** The errors the runtime itself raises. *)
Definition typeError (msg : string) : JsError :=
  {| name := "TypeError"; message := msg;
     stack := "TypeError: " +:+ msg; errno := None; exitCode := None |}.

Definition assertionError (msg : string) : JsError :=
  {| name := "AssertionError"; message := msg;
     stack := "AssertionError: " +:+ msg; errno := None;
     exitCode := None |}.

(** [const defaultLogLevel = 'warn'] *)
Definition defaultLogLevel : string := "warn".

(** [static initialiseConfiguration (config)] *)
Definition initialiseConfiguration (cfg : gmap string JsVal)
  : gmap string JsVal :=
  <["logLevel" := VStr defaultLogLevel]>
    (<["interactiveServerPort" := VNull]>
       (<["isInteractive" := VBool false]> cfg)).

(** [static doInitialiseConfiguration (config)]; nothing in this file
    calls it. *)
Definition doInitialiseConfiguration (cfg : gmap string JsVal)
  : gmap string JsVal :=
  <["isHelp" := VBool false]> (<["isVersion" := VBool false]> cfg).


Definition setInitialised (w : World) : World :=
  {| procArgv := procArgv w; procCwd := procCwd w;
     isInitialised := true; rootPath := rootPath w;
     selfProgramName := selfProgramName w; context := context w |}.

Definition setRootPath (r : option string) (w : World) : World :=
  {| procArgv := procArgv w; procCwd := procCwd w;
     isInitialised := isInitialised w; rootPath := r;
     selfProgramName := selfProgramName w; context := context w |}.

Definition setSelfProgramName (n : string) (w : World) : World :=
  {| procArgv := procArgv w; procCwd := procCwd w;
     isInitialised := isInitialised w; rootPath := rootPath w;
     selfProgramName := n; context := context w |}.

(** [config.key = v] on the context's configuration. *)
Definition assignConfig (key : string) (v : JsVal) : M unit :=
  modify (withContext (λ c, setConfig (<[key := v]> (config c)) c)).

(** Template-literal conversion of a property value. *)
Definition toStr (v : JsVal) : string :=
  match v with
  | VNull => "null"
  | VBool true => "true"
  | VBool false => "false"
  | VNum z => pretty z
  | VStr s => s
  end.

(** *** [static initialise ()] *)
Definition initialise (app : App) : M unit :=
  r ← call (doInitialise app);
  modify (setRootPath r) ;;
  match r with
  | Some (String _ _) => mret tt
  | _ => throw (assertionError "mandatory rootPath not set")
  end.

(** *** [static async initialiseContext (ctx, programName, console_,
    log_, config)]

    [ctx] and [cfg] are [None] for [null]; the console and logger
    arguments are [null] at every call in this file. *)
Definition initialiseContext (app : App) (ctx : option Context)
    (progName : string) (cfg : option (gmap string JsVal)) : M Context :=
  w0 ← getWorld;
  (if isInitialised w0 then mret tt
   else initialise app ;; modify setInitialised) ;;
  w ← getWorld;
  let given := default emptyContext ctx in
  modify (withContext (λ _,
    {| programName := progName; cmdPath := procArgv w !! 1%nat;
       processCwd := procCwd w; processArgv := procArgv w;
       ctxRootPath := rootPath w; package := package given;
       config := config given; commands := commands given;
       fullCommands := fullCommands given |})) ;;
  match package given with
  | Some _ => mret tt
  | None =>
      p ← call (readPackageJson app (rootPath w));
      modify (withContext (setPackage p))
  end ;;
  let c1 := initialiseConfiguration (default ∅ cfg) in
  let c2 := if truthy (c1 !! "cwd") then c1
            else <["cwd" := VStr (procCwd w)]> c1 in
  modify (withContext (setConfig c2)) ;;
  emit (NewLogger (c2 !! "logLevel")) ;;
  getContext.

(** *** [constructor (context)] *)
Definition construct_app (app : App) : M unit :=
  emit (Log LTrace (className app +:+ ".constructor()")).

(** *** [help ()] *)
Definition help (app : App) : M unit :=
  emit (Log LTrace (className app +:+ ".help()")) ;;
  emit OutputMainHelp.

(** *** [async main (argv)] *)

Definition isLowerLetter (c : ascii) : bool := between 97 122 c.

Definition isLetterOrDash (c : ascii) : bool :=
  isLowerLetter c || (N_of_ascii c =? 45)%N.

(** The longest prefix [[a-z-]*] takes. *)
Fixpoint starLetterDash (s : string) : string :=
  match s with
  | EmptyString => EmptyString
  | String c r =>
      if isLetterOrDash c then String c (starLetterDash r)
      else EmptyString
  end.

(** [s.match(/^[a-z][a-z-]*/)]: the matched text, [None] for [null].
    The expression is anchored at the start only. *)
Definition matchCommandWord (s : string) : option string :=
  match s with
  | EmptyString => None
  | String c r =>
      if isLowerLetter c then Some (String c (starLetterDash r))
      else None
  end.

(** The first loop: copy and trim the arguments up to a [--]. *)
Fixpoint mainArgsOf (argv : list string) : list string :=
  match argv with
  | [] => []
  | a :: rest =>
      if String.eqb a "--" then [] else trim a :: mainArgsOf rest
  end.

(** The second loop: the leading words, in lower case. *)
Fixpoint cmdsOf (mainArgs : list string) : list string :=
  match mainArgs with
  | [] => []
  | a :: rest =>
      let lowerCaseArg := toLowerCase a in
      match matchCommandWord lowerCaseArg with
      | Some _ => lowerCaseArg :: cmdsOf rest
      | None => []
      end
  end.

(** The [catch] clause of [main], for a thrown error object. *)
Definition mainCatch (app : App) (err : JsError) : M Z :=
  if String.eqb (name err) "Error" then
    emit (Log LError (message err)) ;;
    match errno err with
    | None =>
        help app ;;
        emit (Log LVerbose "exit(1)") ;;
        mret 1
    | Some _ =>
        let code := default 1 (exitCode err) in
        emit (Log LDebug ("exit(" +:+ pretty code +:+ ")")) ;;
        mret code
    end
  else
    emit (ConsoleError (stack err)) ;;
    mret 2.

(** The text [`'${ctx.programName} ${ctx.fullCommands.join(' ')}' `]
    the two [log.debug] calls around [run] share. *)
Definition invocation (progName : string) (full : list string) : string :=
  "'" +:+ progName +:+ " " +:+ joinSpace full +:+ "' ".

(** The [try] block of [main]. *)
Definition mainTry (app : App) (argv cmds : list string) : M Z :=
  w ← getWorld;
  emit (FindCommandClass cmds) ;;
  found ← call (findCommandClass app cmds (rootPath w));
  modify (withContext (setFullCommands (foundFullCommands found))) ;;
  let full := joinSpace (foundFullCommands found) in
  emit (Log LDebug ("Command(s): '" +:+ full +:+ "'")) ;;
  let cmdArgs := drop (length cmds) argv in
  emitAll (imap (λ index arg,
    Log LTrace ("cmd arg" +:+ pretty index +:+ ": '" +:+ arg +:+ "'"))
    cmdArgs) ;;
  ctx ← getContext;
  let what := invocation (programName ctx) (foundFullCommands found) in
  emit (Log LDebug (what +:+ "started")) ;;
  match foundCmdClass found with
  | None => throw (typeError "CmdDerivedClass is not a constructor")
  | Some cls =>
      emit NewCommand ;;
      match construct cls ctx with
      | Some e => throw e
      | None =>
          emit (RunCommand cmdArgs) ;;
          code ← call (run cls ctx cmdArgs);
          emit (Log LDebug (what +:+ "- returned " +:+ pretty code)) ;;
          mret code
      end
  end.

Definition main (app : App) (argv : list string) : M Z :=
  emit (Log LTrace (className app +:+ ".main()")) ;;
  emitAll (imap (λ index arg,
    Log LTrace ("main arg" +:+ pretty index +:+ ": '" +:+ arg +:+ "'"))
    argv) ;;
  ctx ← getContext;
  cfg ← call (parseOptions app argv (config ctx));
  modify (withContext (setConfig cfg)) ;;
  if truthy (cfg !! "isVersion") then
    match package ctx with
    | None =>
        throw (typeError "Cannot read property 'version' of undefined")
    | Some p =>
        emit (ConsoleLog (version p)) ;;
        mret 0
    end
  else
    let mainArgs := mainArgsOf argv in
    let cmds := cmdsOf mainArgs in
    modify (withContext (setCommands cmds)) ;;
    if (length mainArgs =? 0)%nat
       || ((length cmds =? 0)%nat && truthy (cfg !! "isHelp"))
    then
      help app ;;
      mret 0
    else
      tryCatch (mainTry app argv cmds) (mainCatch app).

(** *** [static async replEvaluatorCallback (cmdLine, context,
    filename, callback)]

    The context is one the REPL passes: its console is set, as the
    assertion ahead of the [try] block requires. *)
Definition replEvaluatorCallback (app : App) (cmdLine : string)
    (ctx : Context) : M unit :=
  tryCatch
    (w ← getWorld;
     initialiseContext app (Some ctx) (selfProgramName w) None ;;
     assignConfig "isInteractive" (VBool true) ;;
     assignConfig "invokedFromCli" (VBool true) ;;
     construct_app app ;;
     let args := splitSpaces (trim cmdLine) in
     main app args ;;
     emit (ReplCallback None))
    (λ reason, emit (ReplCallback (Some reason))).

(** *** [static async doStart ()]

    A process started on a script has the script path in
    [process.argv[1]].  Without one [path.basename] throws a TypeError
    in the code, where this definition reads the empty string: the
    properties of the start-up are stated for a process that has its
    script path. *)
Definition doStart (app : App) : M unit :=
  w ← getWorld;
  let argv1 := default "" (procArgv w !! 1%nat) in
  let progName := beforeDot (basename app argv1) in
  modify (setSelfProgramName progName) ;;
  ctx ← initialiseContext app None progName None;
  emit (SetLogLevel (config ctx !! "logLevel")) ;;
  emit (Log LVerbose (from_option description "" (package ctx))) ;;
  emit (Log LDebug ("argv0: " +:+ argv1)) ;;
  cfg ← call (parseOptions app (procArgv w) (config ctx));
  modify (withContext (setConfig cfg)) ;;
  emit (SetLogLevel (cfg !! "logLevel")) ;;
  emitAll (imap (λ index arg,
    Log LDebug ("start arg" +:+ pretty index +:+ ": '" +:+ arg +:+ "'"))
    (procArgv w)) ;;
  emit (Log LTrace (inspect app cfg)) ;;
  let serverPort := cfg !! "interactiveServerPort" in
  match serverPort with
  | None | Some VNull =>
      if negb (truthy (cfg !! "isInteractive")) then
        assignConfig "invokedFromCli" (VBool true) ;;
        construct_app app ;;
        code ← main app (drop 2 (procArgv w));
        processExit code
      else
        emit (ReplStart (progName +:+ "> ")) ;;
        emit (Log LVerbose "doStart() returns")
  | Some port =>
      emit (ConsoleLog
        ("Listening on localhost:" +:+ toStr port +:+ "...")) ;;
      emit (Listen port) ;;
      emit (Log LVerbose "doStart() returns")
  end.

(** The [catch] clause of [start], for a thrown error object. *)
Definition startCatch (err : JsError) : M unit :=
  (if String.eqb (name err) "Error" then emit (Log LError (message err))
   else emit (ConsoleError (stack err))) ;;
  let code := default 1 (exitCode err) in
  processExit code.

(** *** [static async start ()]

    The program name computed at the head of the [try] block is used
    for [WscriptAvoider.quitIfWscript] only, which returns under
    Node. *)
Definition start (app : App) : M unit :=
  tryCatch
    (emit (NewLogger None) ;;
     doStart app)
    startCatch.

(** *** Names for the stages of [main], used to state its properties *)

(** The [log.trace] calls on entry. *)
Definition mainEntry (app : App) (argv : list string) : list Event :=
  Log LTrace (className app +:+ ".main()") ::
  imap (λ index arg,
    Log LTrace ("main arg" +:+ pretty index +:+ ": '" +:+ arg +:+ "'"))
    argv.

(** The trace of [help ()]. *)
Definition helpTrace (app : App) : list Event :=
  [Log LTrace (className app +:+ ".help()"); OutputMainHelp].

(** The test of the help branch: an empty line, or no commands and
    [-h]. *)
Definition emptyOrHelp (argv : list string) (cfg : gmap string JsVal)
  : bool :=
  (length (mainArgsOf argv) =? 0)%nat
  || ((length (cmdsOf (mainArgsOf argv)) =? 0)%nat
      && truthy (cfg !! "isHelp")).

(** The world when the [try] block is entered: the configuration as
    parsed and [ctx.commands] assigned. *)
Definition atTry (argv : list string) (cfg : gmap string JsVal)
    (w : World) : World :=
  withContext (setCommands (cmdsOf (mainArgsOf argv)))
    (withContext (setConfig cfg) w).

(** The context the command is built on: [ctx.fullCommands] assigned. *)
Definition commandContext (found : Found) (w : World) : Context :=
  setFullCommands (foundFullCommands found) (context w).

(** The arguments passed to [run]: [argv.slice(cmds.length)]. *)
Definition cmdArgsOf (argv : list string) : list string :=
  drop (length (cmdsOf (mainArgsOf argv))) argv.

(** The trace of the [try] block up to the [new]. *)
Definition tryEntry (argv : list string) (found : Found)
    (progName : string) : list Event :=
  [FindCommandClass (cmdsOf (mainArgsOf argv));
   Log LDebug ("Command(s): '" +:+ joinSpace (foundFullCommands found)
               +:+ "'")] ++
  imap (λ index arg,
    Log LTrace ("cmd arg" +:+ pretty index +:+ ": '" +:+ arg +:+ "'"))
    (cmdArgsOf argv) ++
  [Log LDebug (invocation progName (foundFullCommands found)
               +:+ "started")].

(** A failure [e] thrown inside the [try] block, in world [w], by the
    command resolution, by the command's constructor or by its
    [run]. *)
Inductive Thrown (app : App) (argv : list string) (w : World)
    (e : JsError) : Prop :=
| ThrownByResolution :
    findCommandClass app (cmdsOf (mainArgsOf argv)) (rootPath w) = inl e ->
    Thrown app argv w e
| ThrownByConstructor (found : Found) (cls : CmdClass) :
    findCommandClass app (cmdsOf (mainArgsOf argv)) (rootPath w)
      = inr found ->
    foundCmdClass found = Some cls ->
    construct cls (commandContext found w) = Some e ->
    Thrown app argv w e
| ThrownByRun (found : Found) (cls : CmdClass) :
    findCommandClass app (cmdsOf (mainArgsOf argv)) (rootPath w)
      = inr found ->
    foundCmdClass found = Some cls ->
    construct cls (commandContext found w) = None ->
    run cls (commandContext found w) (cmdArgsOf argv) = inl e ->
    Thrown app argv w e.

(** The events of the [try] block: calls into the resolver and the
    command, and log calls below error severity. *)
Definition isDispatchEvent (e : Event) : bool :=
  match e with
  | Log LTrace _ | Log LDebug _ => true
  | FindCommandClass _ | NewCommand | RunCommand _ => true
  | _ => false
  end.

(** The parts of a run: the trace, the completion, and the
    configuration it leaves in the context. *)
Definition traceOf {A} (r : World * list Event * Completion A)
  : list Event := r.1.2.

Definition resultOf {A} (r : World * list Event * Completion A)
  : Completion A := r.2.

Definition configAfter {A} (r : World * list Event * Completion A)
  : gmap string JsVal :=
  config (context (r.1.1)).

(** A run with the trace [t] before it. *)
Definition prepend {A} (t : list Event)
    (r : World * list Event * Completion A)
  : World * list Event * Completion A :=
  (r.1.1, t ++ r.1.2, r.2).

(** The configuration a REPL line is parsed into: a new object,
    initialised, with the two properties the evaluator sets. *)
Definition replConfig (w : World) : gmap string JsVal :=
  <["invokedFromCli" := VBool true]>
    (<["isInteractive" := VBool true]>
       (<["cwd" := VStr (procCwd w)]> (initialiseConfiguration ∅))).

End CliApplication.
Export CliApplication.

(* ===================================================================== *)
(** ** The option parser and the command resolver, [lib/cli-options.js]

    The file is not among the sources; its two entry points are modelled
    from the specification. *)

Module CliOptions.

(** Modelled from the spec: the effect of an OptionSpec (section 3:
    set a boolean, set an enumerated value, increment a counter);
    [lib/cli-options.js] is missing.  A counting option selects
    [once] at its first occurrence and [again] from the second. *)
Inductive Effect :=
| SetTrue (key : string)
| SetLevel (level : string)
| CountLevel (counter : string) (once again : string).

(** Modelled from the spec: an OptionSpec of boolean arity (section 3),
    the only arity among the global options; [lib/cli-options.js] is
    missing. *)
Record OptionSpec := {
  aliases : list string;
  effect : Effect
}.

(** Modelled from the spec: the global options of section 6 and their
    effects (sections 4.3 and 6); [lib/cli-options.js] is missing.
    The configuration keys [isHelp], [isVersion], [isInteractive] and
    [logLevel] are the ones [cli-application.js] reads. *)
Definition commonOptions : list OptionSpec :=
  [ {| aliases := ["-h"; "--help"]; effect := SetTrue "isHelp" |};
    {| aliases := ["--version"]; effect := SetTrue "isVersion" |};
    {| aliases := ["-s"; "--silent"]; effect := SetLevel "silent" |};
    {| aliases := ["-q"; "--quiet"]; effect := SetLevel "warn" |};
    {| aliases := ["-v"; "--verbose"];
       effect := CountLevel "verboseCount" "info" "verbose" |};
    {| aliases := ["-d"; "--debug"];
       effect := CountLevel "debugCount" "debug" "trace" |};
    {| aliases := ["--trace"]; effect := SetLevel "trace" |};
    {| aliases := ["-i"; "--interactive"];
       effect := SetTrue "isInteractive" |} ].

(** Modelled from the spec: a counter of the configuration, zero until
    a flag raised it (section 3); [lib/cli-options.js] is missing. *)
Definition counterOf (cfg : gmap string JsVal) (key : string) : Z :=
  match cfg !! key with
  | Some (VNum n) => n
  | _ => 0
  end.

(** Modelled from the spec: applying one effect, in encounter order,
    the last write winning and counters accumulating (sections 3 and
    4.3); [lib/cli-options.js] is missing. *)
Definition applyEffect (cfg : gmap string JsVal) (e : Effect)
  : gmap string JsVal :=
  match e with
  | SetTrue key => <[key := VBool true]> cfg
  | SetLevel level => <["logLevel" := VStr level]> cfg
  | CountLevel counter once again =>
      let n := counterOf cfg counter + 1 in
      <["logLevel" := VStr (if n <=? 1 then once else again)]>
        (<[counter := VNum n]> cfg)
  end.

(** Modelled from the spec: the OptionSpec an alias names (section 3:
    aliases are unique in the registry); [lib/cli-options.js] is
    missing. *)
Definition findOption (specs : list OptionSpec) (alias : string)
  : option OptionSpec :=
  List.find (λ o, existsb (String.eqb alias) (aliases o)) specs.

(** Modelled from the spec: the short options a single-dash cluster
    encodes, one per character (section 4.3); the cluster is
    recognised when each of its characters is; [lib/cli-options.js]
    is missing. *)
Fixpoint clusterOptions (specs : list OptionSpec) (letters : string)
  : option (list OptionSpec) :=
  match letters with
  | EmptyString => Some []
  | String c r =>
      o ← findOption specs (String "-" (String c EmptyString));
      os ← clusterOptions specs r;
      Some (o :: os)
  end.

(** Modelled from the spec: the options one token stands for: a long
    option for a token that begins with two dashes, a cluster for one
    that begins with a single dash (section 4.3); [None] for a token
    that is no recognised option; [lib/cli-options.js] is missing. *)
Definition optionsOfToken (specs : list OptionSpec) (tok : string)
  : option (list OptionSpec) :=
  match tok with
  | String "-" (String "-" _) => o ← findOption specs tok; Some [o]
  | String "-" (String c r) => clusterOptions specs (String c r)
  | _ => None
  end.

(** Modelled from the spec: parsing the options region into the
    configuration; the tokens that are no recognised option are
    collected and returned with it (section 4.3);
    [lib/cli-options.js] is missing. *)
Fixpoint parseRegion (specs : list OptionSpec) (tokens : list string)
    (cfg : gmap string JsVal) : gmap string JsVal * list string :=
  match tokens with
  | [] => (cfg, [])
  | tok :: rest =>
      match optionsOfToken specs tok with
      | Some os =>
          parseRegion specs rest
            (foldl (λ c o, applyEffect c (effect o)) cfg os)
      | None =>
          let '(cfg', remaining) := parseRegion specs rest cfg in
          (cfg', tok :: remaining)
      end
  end.

(** Modelled from the spec: the tokens before the first [--], which
    ends option parsing and begins the literal tail (section 4.1);
    [lib/cli-options.js] is missing. *)
Fixpoint optionsRegion (args : list string) : list string :=
  match args with
  | [] => []
  | a :: rest =>
      if String.eqb a "--" then [] else a :: optionsRegion rest
  end.

(** Modelled from the spec: [CliOptions.parseOptions(args, config)]
    with the global options active; it never throws (section 7);
    [lib/cli-options.js] is missing. *)
Definition parseOptions (args : list string) (cfg : gmap string JsVal)
  : JsError + gmap string JsVal :=
  inr (fst (parseRegion commonOptions (optionsRegion args) cfg)).

(** Modelled from the spec: a CommandNode (section 3), a leaf bound to
    a command class or an inner node with named children in
    registration order; [lib/cli-options.js] is missing. *)
#[warnings="-register-all"]
Inductive CommandNode :=
| Leaf (cls : CmdClass)
| Inner (children : list (string * CommandNode)).

(** Modelled from the spec: the status returned with the path
    (sections 3 and 4.2); [lib/cli-options.js] is missing. *)
Inductive Status :=
| StFound
| StNotFound
| StAmbiguous (candidates : list string).

(** Modelled from the spec: the ResolvedCommand (section 3);
    [lib/cli-options.js] is missing. *)
Record Resolved := {
  path : list string;
  node : option CmdClass;
  status : Status
}.

(** Modelled from the spec: the child a token selects at one level:
    the one whose name equals it, or else those whose name starts
    with it, case-insensitively (section 4.2); [lib/cli-options.js]
    is missing. *)
Definition matchingChildren (children : list (string * CommandNode))
    (tok : string) : list (string * CommandNode) :=
  match List.find (λ ch, String.eqb (fst ch) tok) children with
  | Some ch => [ch]
  | None =>
      List.filter
        (λ ch, String.prefix (toLowerCase tok) (toLowerCase (fst ch)))
        children
  end.

(** Modelled from the spec: the walk of the Command Tree (section
    4.2): descend while a child matches, stop at a leaf even if
    tokens remain, return the path so far with a status and never
    throw; [lib/cli-options.js] is missing. *)
Fixpoint resolve (tree : CommandNode) (tokens pathSoFar : list string)
    {struct tokens} : Resolved :=
  match tree with
  | Leaf cls =>
      {| path := pathSoFar; node := Some cls; status := StFound |}
  | Inner children =>
      match tokens with
      | [] =>
          {| path := pathSoFar; node := None; status := StNotFound |}
      | tok :: rest =>
          match matchingChildren children tok with
          | [] =>
              {| path := pathSoFar; node := None;
                 status := StNotFound |}
          | [(childName, child)] =>
              resolve child rest (pathSoFar ++ [childName])
          | many =>
              {| path := pathSoFar; node := None;
                 status := StAmbiguous (fst <$> many) |}
          end
      end
  end.

(** Modelled from the spec: [CliOptions.findCommandClass(cmds,
    rootPath, CliCommand)] over a Command Tree; the result carries the
    command class and the full path, the two properties [main] reads;
    [lib/cli-options.js] is missing. *)
Definition findCommandClass (tree : CommandNode) (cmds : list string)
    (root : option string) : JsError + Found :=
  let r := resolve tree cmds [] in
  inr {| foundCmdClass := node r; foundFullCommands := path r |}.

End CliOptions.







(* ===================================================================== *)
(** ** A mock application, after [test/mock]: [xtest] *)

Module Xtest.

(** [class Cwd extends CliCommand]: [doRun] returns
    [CliExitCodes.SUCCESS]. *)
Definition Cwd : CmdClass :=
  {| construct := λ _, None; run := λ _ _, inr 0 |}.

(** A command whose [run] throws [e]. *)
Definition Failing (e : JsError) : CmdClass :=
  {| construct := λ _, None; run := λ _ _, inl e |}.

(** [path.basename] for a POSIX path without a trailing slash. *)
Fixpoint posixBasename (s : string) : string :=
  match s with
  | EmptyString => EmptyString
  | String c r =>
      if existsb (λ d, (N_of_ascii d =? 47)%N) (list_ascii_of_string r)
      then posixBasename r
      else if (N_of_ascii c =? 47)%N then r else s
  end.

Definition pack : Package :=
  {| version := "0.1.0"; description := "Mock Test" |}.

(** The application over a Command Tree, with the parser and the
    resolver of [CliOptions]. *)
Definition app (tree : CliOptions.CommandNode) : App :=
  {| className := "Xtest";
     basename := posixBasename;
     inspect := λ _, "{ ... }";
     doInitialise := inr (Some "/test/mock");
     readPackageJson := λ _, inr pack;
     parseOptions := CliOptions.parseOptions;
     findCommandClass := CliOptions.findCommandClass tree |}.

(** The same application when [package.json] cannot be read. *)
Definition appWithoutPackage (e : JsError) : App :=
  {| className := "Xtest";
     basename := posixBasename;
     inspect := λ _, "{ ... }";
     doInitialise := inr (Some "/test/mock");
     readPackageJson := λ _, inl e;
     parseOptions := CliOptions.parseOptions;
     findCommandClass := CliOptions.findCommandClass (CliOptions.Inner []) |}.

(** The same application with a resolver that throws when the words
    name no command. *)
Definition strict (tree : CliOptions.CommandNode) : App :=
  {| className := "Xtest";
     basename := posixBasename;
     inspect := λ _, "{ ... }";
     doInitialise := inr (Some "/test/mock");
     readPackageJson := λ _, inr pack;
     parseOptions := CliOptions.parseOptions;
     findCommandClass := λ cmds root,
       let r := CliOptions.resolve tree cmds [] in
       match CliOptions.node r with
       | Some cls =>
           inr {| foundCmdClass := Some cls;
                  foundFullCommands := CliOptions.path r |}
       | None =>
           inl {| name := "Error";
                  message := "Command '" +:+ joinSpace cmds
                             +:+ "' not supported.";
                  stack := "Error: Command not supported.";
                  errno := None; exitCode := None |}
       end |}.

Definition jsonError : JsError :=
  {| name := "SyntaxError"; message := "Unexpected token";
     stack := "SyntaxError: Unexpected token"; errno := None;
     exitCode := None |}.

Definition userError (code : option Z) : JsError :=
  {| name := "Error"; message := "bad input";
     stack := "Error: bad input"; errno := None; exitCode := code |}.

Definition fileError (code : option Z) : JsError :=
  {| name := "Error"; message := "ENOENT: no such file";
     stack := "Error: ENOENT: no such file"; errno := Some (-2);
     exitCode := code |}.

Definition rangeError (code : option Z) : JsError :=
  {| name := "RangeError"; message := "out of range";
     stack := "RangeError: out of range"; errno := None;
     exitCode := code |}.

(** The commands of the mock and three that fail. *)
Definition tree : CliOptions.CommandNode :=
  CliOptions.Inner
    [ ("cwd", CliOptions.Leaf Cwd);
      ("refuse", CliOptions.Leaf (Failing (userError (Some 3))));
      ("missing", CliOptions.Leaf (Failing (fileError (Some 3))));
      ("crash", CliOptions.Leaf (Failing (rangeError (Some 3)))) ].

Definition xtest : App := app tree.

(** The world when [main] is entered from [doStart], the
    configuration freshly initialised. *)
Definition world (argv : list string) : World :=
  {| procArgv := "/usr/bin/node" :: "/test/mock/bin/xtest.js" :: argv;
     procCwd := "/home/user";
     isInitialised := true;
     rootPath := Some "/test/mock";
     selfProgramName := "xtest";
     context :=
       {| programName := "xtest";
          cmdPath := Some "/test/mock/bin/xtest.js";
          processCwd := "/home/user";
          processArgv :=
            "/usr/bin/node" :: "/test/mock/bin/xtest.js" :: argv;
          ctxRootPath := Some "/test/mock";
          package := Some pack;
          config :=
            <["cwd" := VStr "/home/user"]> (initialiseConfiguration ∅);
          commands := None;
          fullCommands := None |} |}.

(** A context a previous REPL line left behind: the version and help
    flags set, the level raised to trace. *)
Definition usedContext : Context :=
  {| programName := "xtest";
     cmdPath := Some "/test/mock/bin/xtest.js";
     processCwd := "/tmp";
     processArgv := ["/usr/bin/node"; "/test/mock/bin/xtest.js"; "-i"];
     ctxRootPath := Some "/test/mock";
     package := Some pack;
     config :=
       <["isVersion" := VBool true]>
         (<["isHelp" := VBool true]>
            (<["logLevel" := VStr "trace"]>
               (<["debugCount" := VNum 2]> (initialiseConfiguration ∅))));
     commands := Some [];
     fullCommands := Some ["cwd"] |}.

(** The world before [start]. *)
Definition coldWorld (argv : list string) : World :=
  {| procArgv := "/usr/bin/node" :: "/test/mock/bin/xtest.js" :: argv;
     procCwd := "/home/user";
     isInitialised := false;
     rootPath := None;
     selfProgramName := "";
     context := emptyContext |}.

End Xtest.

(* ===================================================================== *)
(** ** Further parts of [cli-application.js] *)

Module CliApplicationRest.


(** [static fixLogColours (log)], on [log.style]: a map from a key to
    a style object, or to a falsy value ([None]).  Each style object
    loses its [bg] property. *)
Definition fixLogColours (style : gmap string (option (gmap string JsVal)))
  : gmap string (option (gmap string JsVal)) :=
  (λ entry : option (gmap string JsVal),
     match entry with
     | Some styleObject => Some (delete "bg" styleObject)
     | None => None
     end) <$> style.

(** The events [main] and what it calls can leave: log calls, console
    output, the help, and the calls into the resolver and the command. *)
Definition isMainEvent (e : Event) : bool :=
  match e with
  | Log _ _ | ConsoleLog _ | ConsoleError _ | OutputMainHelp => true
  | FindCommandClass _ | NewCommand | RunCommand _ => true
  | _ => false
  end.

(** A string without white space. *)
Fixpoint spaceFree (s : string) : bool :=
  match s with
  | EmptyString => true
  | String c r => negb (isSpace c) && spaceFree r
  end.

(** A string of white space only. *)
Fixpoint blank (s : string) : bool :=
  match s with
  | EmptyString => true
  | String c r => isSpace c && blank r
  end.

(** The event of the [catch] clause of [start]. *)
Definition startReport (e : JsError) : Event :=
  if String.eqb (name e) "Error" then Log LError (message e)
  else ConsoleError (stack e).

(** The world [doStart] calls [initialiseContext] in: the program name
    taken from the script path. *)
Definition namedWorld (app : App) (w : World) : World :=
  setSelfProgramName
    (beforeDot (basename app (default "" (procArgv w !! 1%nat)))) w.

(** The trace of [doStart] between [initialiseContext] and the test of
    the server port, for the context [ctx] and the parsed
    configuration [cfg]. *)
Definition doStartLogs (app : App) (w : World) (ctx : Context)
    (cfg : gmap string JsVal) : list Event :=
  [SetLogLevel (config ctx !! "logLevel");
   Log LVerbose (from_option description "" (package ctx));
   Log LDebug ("argv0: " +:+ default "" (procArgv w !! 1%nat));
   SetLogLevel (cfg !! "logLevel")] ++
  imap (λ index arg,
    Log LDebug ("start arg" +:+ pretty index +:+ ": '" +:+ arg +:+ "'"))
    (procArgv w) ++
  [Log LTrace (inspect app cfg)].

(** [v == null]: true of [null] and of [undefined] only. *)
Definition isNullish (v : option JsVal) : bool :=
  match v with
  | None | Some VNull => true
  | Some _ => false
  end.

(** The context [initialiseContext] assembles from the one it is given:
    the program name and the process properties are assigned, the
    package, the configuration and the saved commands are the given
    ones. *)
Definition builtContext (w : World) (given : Context) (progName : string)
  : Context :=
  {| programName := progName; cmdPath := procArgv w !! 1%nat;
     processCwd := procCwd w; processArgv := procArgv w;
     ctxRootPath := rootPath w; package := package given;
     config := config given; commands := commands given;
     fullCommands := fullCommands given |}.

(** The configuration [initialiseContext] assigns: the given object, or
    a new one, initialised, with [cwd] set when it holds none. *)
Definition freshConfig (w : World) (cfg : option (gmap string JsVal))
  : gmap string JsVal :=
  let c1 := initialiseConfiguration (default ∅ cfg) in
  if truthy (c1 !! "cwd") then c1 else <["cwd" := VStr (procCwd w)]> c1.


(** The first character of a string is no white space. *)
Definition startsClean (s : string) : bool :=
  match s with
  | EmptyString => true
  | String c _ => negb (isSpace c)
  end.

(** The last character of a string is no white space. *)
Fixpoint endsClean (s : string) : bool :=
  match s with
  | EmptyString => true
  | String c EmptyString => negb (isSpace c)
  | String _ r => endsClean r
  end.

End CliApplicationRest.
Export CliApplicationRest.

(** A class that does not override [doInitialise], and an interactive
    start. *)
Module XtestRest.


(** A class whose initialiser returns without setting the root path. *)
Definition rootlessApp : App :=
  {| className := "Xtest";
     basename := Xtest.posixBasename;
     inspect := λ _, "{ ... }";
     doInitialise := inr None;
     readPackageJson := λ _, inr Xtest.pack;
     parseOptions := CliOptions.parseOptions;
     findCommandClass := CliOptions.findCommandClass Xtest.tree |}.

Definition styles : gmap string (option (gmap string JsVal)) :=
  <["info" := Some (<["fg" := VStr "green"]> {[ "bg" := VStr "black" ]})]>
    (<["silly" := None]> {[ "warn" := Some {[ "fg" := VStr "black" ]} ]}).

End XtestRest.

(* ===================================================================== *)
(** * Properties *)

(** ** Running the monad *)

Section Monad.
Context {A B : Type}.

Lemma prepend_nil (r : World * list Event * Completion A) : prepend [] r = r.
Proof. destruct r as [[w t] c]. reflexivity. Qed.

Lemma prepend_prepend (t1 t2 : list Event) (r : World * list Event * Completion A) :
  prepend t1 (prepend t2 r) = prepend (t1 ++ t2) r.
Proof. destruct r as [[w t] c]. unfold prepend. cbn. by rewrite app_assoc. Qed.

Lemma bind_emit (e : Event) (k : unit -> M B) (w : World) :
  (emit e ≫= k) w = prepend [e] (k tt w).
Proof. unfold mbind, M_bind, emit. by destruct (k tt w) as [[w2 t2] r]. Qed.

Lemma bind_emitAll (t : list Event) (k : unit -> M B) (w : World) :
  (emitAll t ≫= k) w = prepend t (k tt w).
Proof. unfold mbind, M_bind, emitAll. by destruct (k tt w) as [[w2 t2] r]. Qed.

Lemma bind_modify (f : World -> World) (k : unit -> M B) (w : World) :
  (modify f ≫= k) w = k tt (f w).
Proof. unfold mbind, M_bind, modify. by destruct (k tt (f w)) as [[w2 t2] r]. Qed.

Lemma bind_getWorld (k : World -> M B) (w : World) :
  (getWorld ≫= k) w = k w w.
Proof. unfold mbind, M_bind, getWorld. by destruct (k w w) as [[w2 t2] r]. Qed.

Lemma bind_getContext (k : Context -> M B) (w : World) :
  (getContext ≫= k) w = k (context w) w.
Proof.
  unfold mbind, M_bind, getContext. by destruct (k (context w) w) as [[w2 t2] r].
Qed.

Lemma bind_ret (a : A) (k : A -> M B) (w : World) :
  (mret a ≫= k) w = k a w.
Proof. unfold mbind, M_bind, mret, M_ret. by destruct (k a w) as [[w2 t2] r]. Qed.

Lemma bind_throw (e : JsError) (k : A -> M B) (w : World) :
  (throw e ≫= k) w = (w, [], Throw e).
Proof. reflexivity. Qed.

Lemma bind_call_inr (a : A) (k : A -> M B) (w : World) :
  (call (inr a) ≫= k) w = k a w.
Proof. apply bind_ret. Qed.

Lemma bind_call_inl (e : JsError) (k : A -> M B) (w : World) :
  (call (inl e) ≫= k) w = (w, [], Throw e).
Proof. reflexivity. Qed.

Lemma ret_run (a : A) (w : World) :
  (mret a : M A) w = (w, [], Normal a).
Proof. reflexivity. Qed.

Lemma throw_run (e : JsError) (w : World) : @throw A e w = (w, [], Throw e).
Proof. reflexivity. Qed.

Lemma prepend_pure (t : list Event) (w : World) (c : Completion A) :
  prepend t (w, [], c) = (w, t, c).
Proof. unfold prepend. cbn. by rewrite app_nil_r. Qed.

Lemma prepend_triple (t t' : list Event) (w : World) (c : Completion A) :
  prepend t (w, t', c) = (w, t ++ t', c).
Proof. reflexivity. Qed.

Lemma bind_assoc_run {C} (m : M A) (k : A -> M B) (h : B -> M C) (w : World) :
  ((m ≫= k) ≫= h) w = (m ≫= (λ a, k a ≫= h)) w.
Proof.
  unfold mbind, M_bind. destruct (m w) as [[w1 t1] [a|e|c]]; try reflexivity.
  destruct (k a w1) as [[w2 t2] [b|e|c]]; try reflexivity.
  destruct (h b w2) as [[w3 t3] r]. by rewrite app_assoc.
Qed.
End Monad.

Create Rewrite HintDb monad.
#[local] Hint Rewrite @ret_run @throw_run @prepend_pure @bind_emit @bind_emitAll @bind_modify @bind_getWorld
  @bind_getContext @bind_ret @bind_throw @bind_call_inr @bind_call_inl
  @prepend_prepend @prepend_nil : monad.

(** ** The dispatcher, stage by stage *)

Section Dispatch.
Variable app : App.

Lemma help_run (w : World) : help app w = (w, helpTrace app, Normal tt).
Proof. reflexivity. Qed.

Lemma bind_help {B} (k : unit -> M B) (w : World) :
  (help app ≫= k) w = prepend (helpTrace app) (k tt w).
Proof.
  unfold help. rewrite bind_assoc_run. autorewrite with monad. reflexivity.
Qed.

Lemma mainCatch_plain (e : JsError) (w : World) :
  name e = "Error" -> errno e = None ->
  mainCatch app e w =
    (w, Log LError (message e) :: helpTrace app ++ [Log LVerbose "exit(1)"],
     Normal 1).
Proof.
  intros Hn He. unfold mainCatch. rewrite Hn, He. reflexivity.
Qed.

Lemma mainCatch_errno (e : JsError) (w : World) (n : Z) :
  name e = "Error" -> errno e = Some n ->
  mainCatch app e w =
    (w, [Log LError (message e);
         Log LDebug ("exit(" +:+ pretty (default 1 (exitCode e)) +:+ ")")],
     Normal (default 1 (exitCode e))).
Proof.
  intros Hn He. unfold mainCatch. rewrite Hn, He. reflexivity.
Qed.

Lemma mainCatch_system (e : JsError) (w : World) :
  name e ≠ "Error" ->
  mainCatch app e w = (w, [ConsoleError (stack e)], Normal 2).
Proof.
  intros Hn. unfold mainCatch.
  destruct (String.eqb_spec (name e) "Error") as [Heq|_]; [contradiction|].
  reflexivity.
Qed.

Lemma main_unfold (argv : list string) (w : World) :
  main app argv w =
  match parseOptions app argv (config (context w)) with
  | inl e => (w, mainEntry app argv, Throw e)
  | inr cfg =>
      if truthy (cfg !! "isVersion") then
        match package (context w) with
        | None =>
            (withContext (setConfig cfg) w, mainEntry app argv,
             Throw (typeError "Cannot read property 'version' of undefined"))
        | Some p =>
            (withContext (setConfig cfg) w,
             mainEntry app argv ++ [ConsoleLog (version p)], Normal 0)
        end
      else if emptyOrHelp argv cfg then
        (atTry argv cfg w, mainEntry app argv ++ helpTrace app, Normal 0)
      else
        prepend (mainEntry app argv)
          (tryCatch (mainTry app argv (cmdsOf (mainArgsOf argv)))
             (mainCatch app) (atTry argv cfg w))
  end.
Proof.
  unfold main. fold (emptyOrHelp argv).
  autorewrite with monad.
  destruct (parseOptions app argv (config (context w))) as [e|cfg].
  - autorewrite with monad. reflexivity.
  - autorewrite with monad.
    destruct (truthy (cfg !! "isVersion")).
    + destruct (package (context w)); autorewrite with monad.
      * reflexivity.
      * reflexivity.
    + autorewrite with monad.
      destruct (emptyOrHelp argv cfg) eqn:Hh.
      * unfold emptyOrHelp in Hh. rewrite Hh. rewrite bind_help.
        autorewrite with monad. reflexivity.
      * unfold emptyOrHelp in Hh. rewrite Hh. reflexivity.
Qed.

Lemma mainTry_unfold (argv : list string) (w : World) :
  mainTry app argv (cmdsOf (mainArgsOf argv)) w =
  match findCommandClass app (cmdsOf (mainArgsOf argv)) (rootPath w) with
  | inl e => (w, [FindCommandClass (cmdsOf (mainArgsOf argv))], Throw e)
  | inr found =>
      let w1 := withContext (setFullCommands (foundFullCommands found)) w in
      let entry := tryEntry argv found (programName (context w)) in
      match foundCmdClass found with
      | None =>
          (w1, entry,
           Throw (typeError "CmdDerivedClass is not a constructor"))
      | Some cls =>
          match construct cls (commandContext found w) with
          | Some e => (w1, entry ++ [NewCommand], Throw e)
          | None =>
              match run cls (commandContext found w) (cmdArgsOf argv) with
              | inl e =>
                  (w1, entry ++ [NewCommand; RunCommand (cmdArgsOf argv)],
                   Throw e)
              | inr code =>
                  (w1,
                   entry ++
                   [NewCommand; RunCommand (cmdArgsOf argv);
                    Log LDebug
                      (invocation (programName (context w))
                         (foundFullCommands found)
                       +:+ "- returned " +:+ pretty code)],
                   Normal code)
              end
          end
      end
  end.
Proof.
  unfold mainTry. autorewrite with monad.
  destruct (findCommandClass app _ _) as [e|found].
  - autorewrite with monad. reflexivity.
  - autorewrite with monad. cbn zeta.
    fold (cmdArgsOf argv). unfold commandContext.
    destruct (foundCmdClass found) as [cls|].
    + autorewrite with monad. cbn [context withContext].
      destruct (construct cls _) as [e|].
      * autorewrite with monad. unfold tryEntry. cbn.
        rewrite <- ?app_assoc. reflexivity.
      * autorewrite with monad.
        destruct (run cls _ _) as [e|code]; autorewrite with monad.
        -- unfold tryEntry. cbn. rewrite <- ?app_assoc. reflexivity.
        -- unfold tryEntry. cbn. rewrite <- ?app_assoc. reflexivity.
    + autorewrite with monad. unfold tryEntry. cbn.
      rewrite <- ?app_assoc. reflexivity.
Qed.

Lemma tryCatch_throw {A} (m : M A) (h : JsError -> M A) (w w1 : World)
    (t : list Event) (e : JsError) :
  m w = (w1, t, Throw e) -> tryCatch m h w = prepend t (h e w1).
Proof.
  intros Hm. unfold tryCatch. rewrite Hm.
  by destruct (h e w1) as [[w2 t2] r].
Qed.

Lemma tryCatch_normal {A} (m : M A) (h : JsError -> M A) (w w1 : World)
    (t : list Event) (a : A) :
  m w = (w1, t, Normal a) -> tryCatch m h w = (w1, t, Normal a).
Proof. intros Hm. unfold tryCatch. by rewrite Hm. Qed.

Lemma Forall_imap {A B} (P : B -> Prop) (f : nat -> A -> B) (l : list A) :
  (forall i x, P (f i x)) -> Forall P (imap f l).
Proof.
  revert f. induction l as [|x l IH]; intros f Hf; cbn; constructor.
  - apply Hf.
  - apply IH. intros i y. apply Hf.
Qed.

Lemma mainEntry_logs (argv : list string) :
  Forall (λ ev, ∃ msg, ev = Log LTrace msg) (mainEntry app argv).
Proof.
  unfold mainEntry. constructor; [by eexists|].
  apply Forall_imap. intros i x. by eexists.
Qed.

Lemma mainEntry_dispatch (argv : list string) :
  Forall (λ ev, isDispatchEvent ev = true) (mainEntry app argv).
Proof.
  eapply Forall_impl; [apply mainEntry_logs|].
  intros ev [msg ->]. reflexivity.
Qed.

Lemma tryEntry_dispatch (argv : list string) (found : Found)
    (progName : string) :
  Forall (λ ev, isDispatchEvent ev = true) (tryEntry argv found progName).
Proof.
  unfold tryEntry. repeat (apply Forall_app; split).
  - repeat constructor.
  - apply Forall_imap. reflexivity.
  - repeat constructor.
Qed.

(** A failure thrown in the [try] block leaves it as a throw, after
    dispatch events only. *)
Lemma thrown_mainTry (argv : list string) (w : World) (e : JsError) :
  Thrown app argv w e ->
  ∃ w1 t,
    mainTry app argv (cmdsOf (mainArgsOf argv)) w = (w1, t, Throw e)
    ∧ Forall (λ ev, isDispatchEvent ev = true) t.
Proof.
  intros [Hf | found cls Hf Hc He | found cls Hf Hc Hn He];
    rewrite mainTry_unfold, Hf; cbn zeta; rewrite ?Hc, ?He, ?Hn, ?He.
  - eexists _, _. split; [reflexivity|]. repeat constructor.
  - eexists _, _. split; [reflexivity|].
    apply Forall_app; split; [apply tryEntry_dispatch | repeat constructor].
  - eexists _, _. split; [reflexivity|].
    apply Forall_app; split; [apply tryEntry_dispatch | repeat constructor].
Qed.

Lemma consoleStdout_cons (ev : Event) (t : list Event) :
  consoleStdout (ev :: t) = stdoutOf ev +:+ consoleStdout t.
Proof. reflexivity. Qed.

Lemma consoleStderr_cons (ev : Event) (t : list Event) :
  consoleStderr (ev :: t) = stderrOf ev +:+ consoleStderr t.
Proof. reflexivity. Qed.

(** Dispatch events write nothing on the console and show no help. *)
Lemma dispatch_stdout (t : list Event) :
  Forall (λ ev, isDispatchEvent ev = true) t -> consoleStdout t = "".
Proof.
  induction 1 as [|ev t Hev _ IH]; [reflexivity|].
  rewrite consoleStdout_cons, IH.
  by destruct ev as [[] ?| | | | | | | | | | |].
Qed.

Lemma dispatch_stderr (t : list Event) :
  Forall (λ ev, isDispatchEvent ev = true) t -> consoleStderr t = "".
Proof.
  induction 1 as [|ev t Hev _ IH]; [reflexivity|].
  rewrite consoleStderr_cons, IH.
  by destruct ev as [[] ?| | | | | | | | | | |].
Qed.

Lemma dispatch_no_help (t : list Event) :
  Forall (λ ev, isDispatchEvent ev = true) t -> OutputMainHelp ∉ t.
Proof.
  intros Ht Hin. rewrite Forall_forall in Ht. by apply Ht in Hin.
Qed.

Lemma dispatch_no_error_log (t : list Event) (msg : string) :
  Forall (λ ev, isDispatchEvent ev = true) t -> Log LError msg ∉ t.
Proof.
  intros Ht Hin. rewrite Forall_forall in Ht. by apply Ht in Hin.
Qed.

Lemma string_app_assoc (a b c : string) :
  (a +:+ b) +:+ c = a +:+ (b +:+ c).
Proof.
  induction a as [|x a IH]; [reflexivity|].
  change (String x ((a +:+ b) +:+ c) = String x (a +:+ (b +:+ c))).
  by rewrite IH.
Qed.

Lemma string_app_nil_r (a : string) : a +:+ "" = a.
Proof.
  induction a as [|x a IH]; [reflexivity|].
  change (String x (a +:+ "") = String x a). by rewrite IH.
Qed.

Lemma consoleStdout_app (t1 t2 : list Event) :
  consoleStdout (t1 ++ t2) = consoleStdout t1 +:+ consoleStdout t2.
Proof.
  induction t1 as [|ev t1 IH]; [reflexivity|].
  rewrite <- app_comm_cons, !consoleStdout_cons, IH.
  by rewrite string_app_assoc.
Qed.

Lemma consoleStderr_app (t1 t2 : list Event) :
  consoleStderr (t1 ++ t2) = consoleStderr t1 +:+ consoleStderr t2.
Proof.
  induction t1 as [|ev t1 IH]; [reflexivity|].
  rewrite <- app_comm_cons, !consoleStderr_cons, IH.
  by rewrite string_app_assoc.
Qed.

(** The outcome of [main] once the [try] block is entered and a failure
    is thrown in it: the [catch] clause decides. *)
Lemma main_thrown (argv : list string) (w : World)
    (cfg : gmap string JsVal) (e : JsError) :
  parseOptions app argv (config (context w)) = inr cfg ->
  truthy (cfg !! "isVersion") = false ->
  emptyOrHelp argv cfg = false ->
  Thrown app argv (atTry argv cfg w) e ->
  ∃ w1 t,
    Forall (λ ev, isDispatchEvent ev = true) t
    ∧ main app argv w
      = prepend (mainEntry app argv ++ t) (mainCatch app e w1).
Proof.
  intros Hp Hv Hh Ht.
  destruct (thrown_mainTry _ _ _ Ht) as (w1 & t & Htry & Hd).
  exists w1, t. split; [exact Hd|].
  rewrite main_unfold, Hp, Hv, Hh.
  rewrite (tryCatch_throw _ _ _ _ _ _ Htry).
  by rewrite prepend_prepend.
Qed.

End Dispatch.

(** One step of a run: reassociate, or run the first action. *)
Ltac monad_step :=
  first [ rewrite bind_assoc_run | rewrite bind_ret | rewrite bind_getWorld
        | rewrite bind_getContext | rewrite bind_modify | rewrite bind_emit
        | rewrite bind_emitAll ];
  cbn beta.

(** Membership in an evaluated trace. *)
Ltac absent :=
  let H := fresh "H" in
  intros H; apply list_elem_of_In in H; vm_compute in H;
  intuition discriminate.

Ltac present :=
  vm_compute;
  repeat first [apply list_elem_of_here | apply list_elem_of_further].

(* ===================================================================== *)
(** ** The version flag *)

(** C1. When the configuration, once the options are parsed, has the
    version flag set, [main] returns 0 after one [console.log] of the
    package version: standard output receives that string and a line
    terminator, [console.error] is not called, and every other event is
    a trace-level log call, so that no command is resolved, built or
    run and no help is shown, whatever the command words are. *)
Theorem main_version (app : App) (argv : list string) (w : World)
    (cfg : gmap string JsVal) (p : Package) :
  parseOptions app argv (config (context w)) = inr cfg ->
  truthy (cfg !! "isVersion") = true ->
  package (context w) = Some p ->
  ∃ t,
    main app argv w = (withContext (setConfig cfg) w, t, Normal 0)
    ∧ consoleStdout t = version p +:+ newline
    ∧ consoleStderr t = ""
    ∧ Forall (λ ev, ev = ConsoleLog (version p)
                    ∨ ∃ msg, ev = Log LTrace msg) t.
Proof.
  intros Hp Hv Hpkg.
  exists (mainEntry app argv ++ [ConsoleLog (version p)]).
  pose proof (mainEntry_dispatch app argv) as Hd.
  split; [|split; [|split]].
  - by rewrite main_unfold, Hp, Hv, Hpkg.
  - rewrite consoleStdout_app, (dispatch_stdout _ Hd).
    cbn. by rewrite string_app_nil_r.
  - by rewrite consoleStderr_app, (dispatch_stderr _ Hd).
  - apply Forall_app; split.
    + eapply Forall_impl; [apply mainEntry_logs|]. intros ev H. by right.
    + repeat constructor.
Qed.

Lemma main_version_witness :
  let argv := ["crash"; "--version"] in
  let w := Xtest.world argv in
  let cfg := <["isVersion" := VBool true]> (config (context w)) in
  ∃ t,
    main Xtest.xtest argv w = (withContext (setConfig cfg) w, t, Normal 0)
    ∧ consoleStdout t = "0.1.0" +:+ newline
    ∧ consoleStderr t = ""
    ∧ Forall (λ ev, ev = ConsoleLog "0.1.0"
                    ∨ ∃ msg, ev = Log LTrace msg) t.
Proof.
  apply (main_version Xtest.xtest _ _ _ Xtest.pack); reflexivity.
Defined.

(* ===================================================================== *)
(** ** The outcome mapping of [main] *)

(** C2, as amended.  A failure thrown by the command resolution, by the
    command's constructor or by its [run], and whose name is [Error], has
    its message logged at error severity.  When it carries no [errno],
    [main] then shows the help and returns 1, whatever [exitCode] it
    carries; when it carries an [errno], [main] shows no help and
    returns its [exitCode], or 1 when it has none. *)
Theorem main_user_failure (app : App) (argv : list string) (w : World)
    (cfg : gmap string JsVal) (e : JsError) :
  parseOptions app argv (config (context w)) = inr cfg ->
  truthy (cfg !! "isVersion") = false ->
  emptyOrHelp argv cfg = false ->
  Thrown app argv (atTry argv cfg w) e ->
  name e = "Error" ->
  ∃ w1 t,
    Forall (λ ev, isDispatchEvent ev = true) t
    ∧ main app argv w =
      (w1,
       (mainEntry app argv ++ t) ++
       Log LError (message e) ::
       match errno e with
       | None => helpTrace app ++ [Log LVerbose "exit(1)"]
       | Some _ =>
           [Log LDebug
              ("exit(" +:+ pretty (default 1 (exitCode e)) +:+ ")")]
       end,
       Normal match errno e with
              | None => 1
              | Some _ => default 1 (exitCode e)
              end).
Proof.
  intros Hp Hv Hh Ht Hn.
  destruct (main_thrown app _ _ _ _ Hp Hv Hh Ht) as (w1 & t & Hd & Hm).
  exists w1, t. split; [exact Hd|]. rewrite Hm.
  destruct (errno e) as [n|] eqn:He.
  - by rewrite (mainCatch_errno app e w1 n Hn He).
  - by rewrite (mainCatch_plain app e w1 Hn He).
Qed.

Lemma main_user_failure_witness :
  let argv := ["missing"; "-q"] in
  let e := Xtest.fileError (Some 3) in
  ∃ w1 t,
    Forall (λ ev, isDispatchEvent ev = true) t
    ∧ main Xtest.xtest argv (Xtest.world argv) =
      (w1,
       (mainEntry Xtest.xtest argv ++ t) ++
       [Log LError (message e); Log LDebug "exit(3)"],
       Normal 3).
Proof.
  apply (main_user_failure Xtest.xtest ["missing"; "-q"]
           (Xtest.world ["missing"; "-q"])
           (config (context (Xtest.world ["missing"; "-q"])))
           (Xtest.fileError (Some 3))); try reflexivity.
  eapply ThrownByRun; reflexivity.
Defined.

(** C2, as stated, fails: the command [refuse] throws an [Error] that
    carries the explicit code 3 and no [errno]; [main] shows the help
    and returns 1, not 3. *)
Lemma explicit_code_ignored_counterexample :
  let e := Xtest.userError (Some 3) in
  let r := main Xtest.xtest ["refuse"] (Xtest.world ["refuse"]) in
  Thrown Xtest.xtest ["refuse"]
    (atTry ["refuse"] (config (context (Xtest.world ["refuse"])))
       (Xtest.world ["refuse"])) e
  ∧ name e = "Error"
  ∧ exitCode e = Some 3
  ∧ resultOf r = Normal 1
  ∧ resultOf r ≠ Normal 3
  ∧ (OutputMainHelp ∈ traceOf r).
Proof.
  cbv zeta. split; [|split; [|split; [|split; [|split]]]].
  - eapply ThrownByRun; reflexivity.
  - reflexivity.
  - reflexivity.
  - reflexivity.
  - discriminate.
  - present.
Qed.

(** C3. A failure thrown by the command resolution, by the command's
    constructor or by its [run], and whose name is not [Error], has its
    stack written with [console.error]; [main] returns 2 whatever
    [exitCode] the error carries, logs nothing at error severity and
    shows no help. *)
Theorem main_system_failure (app : App) (argv : list string) (w : World)
    (cfg : gmap string JsVal) (e : JsError) :
  parseOptions app argv (config (context w)) = inr cfg ->
  truthy (cfg !! "isVersion") = false ->
  emptyOrHelp argv cfg = false ->
  Thrown app argv (atTry argv cfg w) e ->
  name e ≠ "Error" ->
  ∃ w1 t,
    main app argv w = (w1, t ++ [ConsoleError (stack e)], Normal 2)
    ∧ consoleStderr (t ++ [ConsoleError (stack e)]) = stack e +:+ newline
    ∧ (OutputMainHelp ∉ (t ++ [ConsoleError (stack e)]))
    ∧ (∀ msg, Log LError msg ∉ (t ++ [ConsoleError (stack e)])).
Proof.
  intros Hp Hv Hh Ht Hn.
  destruct (main_thrown app _ _ _ _ Hp Hv Hh Ht) as (w1 & t & Hd & Hm).
  assert (Hall : Forall (λ ev, isDispatchEvent ev = true)
                   (mainEntry app argv ++ t)).
  { apply Forall_app; split; [apply mainEntry_dispatch | exact Hd]. }
  exists w1, (mainEntry app argv ++ t).
  split; [|split; [|split]].
  - by rewrite Hm, (mainCatch_system app e w1 Hn).
  - rewrite consoleStderr_app, (dispatch_stderr _ Hall).
    cbn. by rewrite string_app_nil_r.
  - intros [Hin|Hin]%elem_of_app.
    + by apply (dispatch_no_help _ Hall).
    + by apply list_elem_of_singleton in Hin.
  - intros msg [Hin|Hin]%elem_of_app.
    + by apply (dispatch_no_error_log _ msg Hall).
    + by apply list_elem_of_singleton in Hin.
Qed.

Lemma main_system_failure_witness :
  let argv := ["crash"] in
  let e := Xtest.rangeError (Some 3) in
  ∃ w1 t,
    main Xtest.xtest argv (Xtest.world argv)
      = (w1, t ++ [ConsoleError (stack e)], Normal 2)
    ∧ consoleStderr (t ++ [ConsoleError (stack e)]) = stack e +:+ newline
    ∧ (OutputMainHelp ∉ (t ++ [ConsoleError (stack e)]))
    ∧ (∀ msg, Log LError msg ∉ (t ++ [ConsoleError (stack e)])).
Proof.
  apply (main_system_failure Xtest.xtest ["crash"] (Xtest.world ["crash"])
           (config (context (Xtest.world ["crash"])))
           (Xtest.rangeError (Some 3))); try reflexivity.
  - eapply ThrownByRun; reflexivity.
  - discriminate.
Defined.

(* ===================================================================== *)
(** ** The help branch *)

(** C4, as amended.  With the version flag not set, [main] shows the
    help and returns 0 when no argument precedes the first [--] (the
    line is empty), or when there is no leading command word and the
    help flag is set. *)
Theorem main_help (app : App) (argv : list string) (w : World)
    (cfg : gmap string JsVal) :
  parseOptions app argv (config (context w)) = inr cfg ->
  truthy (cfg !! "isVersion") = false ->
  mainArgsOf argv = []
  ∨ (cmdsOf (mainArgsOf argv) = [] ∧ truthy (cfg !! "isHelp") = true) ->
  main app argv w
    = (atTry argv cfg w, mainEntry app argv ++ helpTrace app, Normal 0).
Proof.
  intros Hp Hv Hc. rewrite main_unfold, Hp, Hv.
  assert (emptyOrHelp argv cfg = true) as ->; [|reflexivity].
  unfold emptyOrHelp. destruct Hc as [-> | [-> ->]]; [reflexivity|].
  cbn. apply orb_true_r.
Qed.

Lemma main_help_witness :
  let argv := ["-h"; "cwd"] in
  let w := Xtest.world argv in
  main Xtest.xtest argv w
    = (atTry argv (<["isHelp" := VBool true]> (config (context w))) w,
       mainEntry Xtest.xtest argv ++ helpTrace Xtest.xtest, Normal 0).
Proof.
  apply (main_help Xtest.xtest ["-h"; "cwd"]
           (Xtest.world ["-h"; "cwd"])); try reflexivity.
  right. split; reflexivity.
Defined.

(** C4, as stated, fails: [--version] and [-v] have no leading word.
    On the first [main] prints the version and shows no help; on the
    second it goes on to resolve an empty list of words, and does not
    return 0. *)
Lemma no_words_no_help_counterexample :
  let r1 := main Xtest.xtest ["--version"] (Xtest.world ["--version"]) in
  let r2 := main Xtest.xtest ["-v"] (Xtest.world ["-v"]) in
  cmdsOf (mainArgsOf ["--version"]) = []
  ∧ (OutputMainHelp ∉ traceOf r1)
  ∧ cmdsOf (mainArgsOf ["-v"]) = []
  ∧ (FindCommandClass [] ∈ traceOf r2)
  ∧ (OutputMainHelp ∉ traceOf r2)
  ∧ resultOf r2 ≠ Normal 0.
Proof.
  cbv zeta. split; [|split; [|split; [|split; [|split]]]].
  - reflexivity.
  - absent.
  - reflexivity.
  - present.
  - absent.
  - vm_compute. discriminate.
Qed.

(* ===================================================================== *)
(** ** Resolution failures *)

(** C7, as amended.  [main] looks at no status in what the resolver
    returns.  A resolution failure reaches it as a thrown error and is
    classified by its [catch] clause; a returned object has its command
    class instantiated, and when it holds none the [TypeError] of the
    [new] is reported as a system error, with exit code 2. *)
Theorem main_resolution_outcome (app : App) (argv : list string)
    (w : World) (cfg : gmap string JsVal) (r : JsError + Found) :
  parseOptions app argv (config (context w)) = inr cfg ->
  truthy (cfg !! "isVersion") = false ->
  emptyOrHelp argv cfg = false ->
  findCommandClass app (cmdsOf (mainArgsOf argv)) (rootPath w) = r ->
  match r with
  | inl e =>
      main app argv w
        = prepend
            (mainEntry app argv
             ++ [FindCommandClass (cmdsOf (mainArgsOf argv))])
            (mainCatch app e (atTry argv cfg w))
  | inr found =>
      match foundCmdClass found with
      | None =>
          ∃ w1,
            main app argv w
              = (w1,
                 mainEntry app argv
                 ++ tryEntry argv found (programName (context w))
                 ++ [ConsoleError
                       (stack (typeError
                          "CmdDerivedClass is not a constructor"))],
                 Normal 2)
      | Some cls => NewCommand ∈ traceOf (main app argv w)
      end
  end.
Proof.
  intros Hp Hv Hh Hr. rewrite main_unfold, Hp, Hv, Hh.
  pose proof (mainTry_unfold app argv (atTry argv cfg w)) as Htry.
  change (rootPath (atTry argv cfg w)) with (rootPath w) in Htry.
  change (programName (context (atTry argv cfg w)))
    with (programName (context w)) in Htry.
  rewrite Hr in Htry. destruct r as [e|found].
  - rewrite (tryCatch_throw _ _ _ _ _ _ Htry). by rewrite prepend_prepend.
  - cbn zeta in Htry. destruct (foundCmdClass found) as [cls|].
    + assert (∃ w1 t c,
        tryCatch (mainTry app argv (cmdsOf (mainArgsOf argv)))
          (mainCatch app) (atTry argv cfg w)
        = (w1, tryEntry argv found (programName (context w))
               ++ NewCommand :: t, c)) as (w1 & t & c & ->).
      { destruct (construct cls _) as [e|].
        - rewrite (tryCatch_throw _ _ _ _ _ _ Htry).
          destruct (mainCatch app e _) as [[w1 t] c].
          exists w1, t, c. unfold prepend. cbn.
          by rewrite <- app_assoc.
        - destruct (run cls _ _) as [e|code].
          + rewrite (tryCatch_throw _ _ _ _ _ _ Htry).
            destruct (mainCatch app e _) as [[w1 t] c].
            eexists w1, _, c. unfold prepend. cbn.
            by rewrite <- app_assoc.
          + rewrite (tryCatch_normal _ _ _ _ _ _ Htry).
            by eexists _, _, _. }
      unfold traceOf, prepend. cbn. set_solver.
    + rewrite (tryCatch_throw _ _ _ _ _ _ Htry).
      rewrite mainCatch_system by discriminate.
      eexists. unfold prepend. cbn. reflexivity.
Qed.

Lemma main_resolution_outcome_witness :
  let argv := ["x"; "-q"] in
  let w := Xtest.world argv in
  let e :=
    {| name := "Error"; message := "Command 'x' not supported.";
       stack := "Error: Command not supported.";
       errno := None; exitCode := None |} in
  main (Xtest.strict Xtest.tree) argv w
    = prepend
        (mainEntry (Xtest.strict Xtest.tree) argv ++ [FindCommandClass ["x"]])
        (mainCatch (Xtest.strict Xtest.tree) e
           (atTry argv (config (context w)) w)).
Proof.
  exact (main_resolution_outcome (Xtest.strict Xtest.tree) ["x"; "-q"]
           (Xtest.world ["x"; "-q"])
           (config (context (Xtest.world ["x"; "-q"])))
           (inl {| name := "Error"; message := "Command 'x' not supported.";
                   stack := "Error: Command not supported.";
                   errno := None; exitCode := None |})
           eq_refl eq_refl eq_refl eq_refl).
Defined.

(** C7, as stated, fails: the resolver modelled on the specification
    returns the dead end [x] as a value, with the status not-found and
    no throw; [main] then neither shows the help nor reports a user
    error: it logs nothing at error severity, prints the stack of a
    [TypeError] and returns 2. *)
Lemma status_not_inspected_counterexample :
  let r := main Xtest.xtest ["x"] (Xtest.world ["x"]) in
  CliOptions.status (CliOptions.resolve Xtest.tree ["x"] [])
    = CliOptions.StNotFound
  ∧ (∃ found,
       findCommandClass Xtest.xtest ["x"] (Some "/test/mock") = inr found)
  ∧ resultOf r = Normal 2
  ∧ (OutputMainHelp ∉ traceOf r)
  ∧ (∀ msg, Log LError msg ∉ traceOf r)
  ∧ (ConsoleError "TypeError: CmdDerivedClass is not a constructor"
      ∈ traceOf r).
Proof.
  cbv zeta. split; [|split; [|split; [|split; [|split]]]].
  - reflexivity.
  - eexists. reflexivity.
  - reflexivity.
  - absent.
  - intros msg. absent.
  - present.
Qed.

(* ===================================================================== *)
(** ** The [--] terminator *)

Lemma mainArgsOf_tail (pre tail : list string) :
  "--" ∉ pre -> mainArgsOf (pre ++ "--" :: tail) = mainArgsOf pre.
Proof.
  induction pre as [|a pre IH]; intros Hpre; [reflexivity|].
  apply not_elem_of_cons in Hpre as [Ha Hpre]. cbn.
  destruct (String.eqb_spec a "--") as [->|_]; [done|].
  by rewrite IH.
Qed.

Lemma mainArgsOf_length (argv : list string) :
  (length (mainArgsOf argv) <= length argv)%nat.
Proof.
  induction argv as [|a argv IH]; cbn; [lia|].
  destruct (String.eqb a "--"); cbn; lia.
Qed.

Lemma cmdsOf_length (mainArgs : list string) :
  (length (cmdsOf mainArgs) <= length mainArgs)%nat.
Proof.
  induction mainArgs as [|a l IH]; cbn; [lia|].
  destruct (matchCommandWord (toLowerCase a)); cbn; lia.
Qed.

(** The arguments passed on begin after the leading words and keep the
    [--] and all that follows it. *)
Lemma cmdArgsOf_tail (pre tail : list string) :
  "--" ∉ pre ->
  cmdArgsOf (pre ++ "--" :: tail)
    = drop (length (cmdsOf (mainArgsOf pre))) pre ++ "--" :: tail.
Proof.
  intros Hpre. unfold cmdArgsOf. rewrite (mainArgsOf_tail _ _ Hpre).
  apply drop_app_le.
  etrans; [apply cmdsOf_length | apply mainArgsOf_length].
Qed.

Lemma optionsRegion_tail (pre tail : list string) :
  "--" ∉ pre -> CliOptions.optionsRegion (pre ++ "--" :: tail) = pre.
Proof.
  induction pre as [|a pre IH]; intros Hpre; [reflexivity|].
  apply not_elem_of_cons in Hpre as [Ha Hpre]. cbn.
  destruct (String.eqb_spec a "--") as [->|_]; [done|].
  by rewrite IH.
Qed.

Lemma optionsRegion_id (pre : list string) :
  "--" ∉ pre -> CliOptions.optionsRegion pre = pre.
Proof.
  induction pre as [|a pre IH]; intros Hpre; [reflexivity|].
  apply not_elem_of_cons in Hpre as [Ha Hpre]. cbn.
  destruct (String.eqb_spec a "--") as [->|_]; [done|].
  by rewrite IH.
Qed.

(** The parser modelled on the specification does not read past the
    first [--]. *)
Lemma parseOptions_tail (pre tail : list string) (cfg : gmap string JsVal) :
  "--" ∉ pre ->
  CliOptions.parseOptions (pre ++ "--" :: tail) cfg
    = CliOptions.parseOptions pre cfg.
Proof.
  intros Hpre. unfold CliOptions.parseOptions.
  by rewrite optionsRegion_tail, optionsRegion_id.
Qed.

(** C5. For an argument vector [pre ++ "--" :: tail], [--] not in
    [pre]: the command words are those found in [pre]; the parser (as
    modelled on the specification) leaves the configuration it leaves
    on [pre] alone, whatever follows the [--]; and the command resolved
    has its [run] called with the arguments after the leading words,
    the [--] and the tail included, in their order and as they were
    given. *)
Theorem double_dash_tail (app : App) (pre tail : list string) (w : World)
    (cfg : gmap string JsVal) (found : Found) (cls : CmdClass) :
  let argv := pre ++ "--" :: tail in
  let args := drop (length (cmdsOf (mainArgsOf pre))) pre ++ "--" :: tail in
  let ctx := commandContext found (atTry argv cfg w) in
  "--" ∉ pre ->
  parseOptions app argv (config (context w)) = inr cfg ->
  truthy (cfg !! "isVersion") = false ->
  emptyOrHelp argv cfg = false ->
  findCommandClass app (cmdsOf (mainArgsOf pre)) (rootPath w) = inr found ->
  foundCmdClass found = Some cls ->
  construct cls ctx = None ->
  cmdsOf (mainArgsOf argv) = cmdsOf (mainArgsOf pre)
  ∧ (∀ c tail', CliOptions.parseOptions (pre ++ "--" :: tail') c
                = CliOptions.parseOptions pre c)
  ∧ (RunCommand args ∈ traceOf (main app argv w))
  ∧ resultOf (main app argv w)
    = match run cls ctx args with
      | inr code => Normal code
      | inl e => resultOf (mainCatch app e w)
      end.
Proof.
  intros argv args ctx Hpre Hp Hv Hh Hf Hc Hn.
  assert (Hcmds : cmdsOf (mainArgsOf argv) = cmdsOf (mainArgsOf pre)).
  { unfold argv. by rewrite mainArgsOf_tail. }
  assert (Hargs : cmdArgsOf argv = args) by by apply cmdArgsOf_tail.
  split; [exact Hcmds|]. split.
  { intros c tail'. by apply parseOptions_tail. }
  rewrite main_unfold, Hp, Hv, Hh.
  pose proof (mainTry_unfold app argv (atTry argv cfg w)) as Htry.
  change (rootPath (atTry argv cfg w)) with (rootPath w) in Htry.
  rewrite Hcmds, Hf in Htry. cbn zeta in Htry.
  rewrite Hc, Hargs in Htry. fold ctx in Htry. rewrite Hn in Htry.
  rewrite Hcmds.
  destruct (run cls ctx args) as [e|code].
  - rewrite (tryCatch_throw _ _ _ _ _ _ Htry).
    assert (∃ t c, ∀ w', mainCatch app e w' = (w', t, Normal c))
      as (t & c & Hcatch).
    { unfold mainCatch. destruct (String.eqb (name e) "Error");
        [destruct (errno e)|]; by eexists _, _. }
    rewrite !Hcatch. unfold traceOf, resultOf, prepend. cbn.
    split; [set_solver | reflexivity].
  - rewrite (tryCatch_normal _ _ _ _ _ _ Htry).
    unfold traceOf, resultOf, prepend. cbn.
    split; [set_solver | reflexivity].
Qed.

Lemma double_dash_tail_witness :
  let pre := ["cwd"; "-q"] in
  let tail := ["-v"; "--version"] in
  let argv := pre ++ "--" :: tail in
  let w := Xtest.world argv in
  cmdsOf (mainArgsOf argv) = cmdsOf (mainArgsOf pre)
  ∧ (∀ c tail', CliOptions.parseOptions (pre ++ "--" :: tail') c
                = CliOptions.parseOptions pre c)
  ∧ (RunCommand ["-q"; "--"; "-v"; "--version"]
       ∈ traceOf (main Xtest.xtest argv w))
  ∧ resultOf (main Xtest.xtest argv w) = Normal 0.
Proof.
  apply (double_dash_tail Xtest.xtest ["cwd"; "-q"] ["-v"; "--version"]
           (Xtest.world ["cwd"; "-q"; "--"; "-v"; "--version"])
           (config (context
              (Xtest.world ["cwd"; "-q"; "--"; "-v"; "--version"])))
           {| foundCmdClass := Some Xtest.Cwd;
              foundFullCommands := ["cwd"] |}
           Xtest.Cwd); try reflexivity.
  intros H. apply list_elem_of_In in H. vm_compute in H.
  intuition discriminate.
Defined.

(* ===================================================================== *)
(** ** The scan of the leading words *)

(** What the test of the scan amounts to: the token, in lower case,
    begins with a letter. *)
Lemma matchCommandWord_Some (s : string) :
  is_Some (matchCommandWord s)
  ↔ ∃ c r, s = String c r ∧ isLowerLetter c = true.
Proof.
  destruct s as [|c r]; cbn.
  - split; [by intros [? ?] | by intros (? & ? & ? & _)].
  - destruct (isLowerLetter c) eqn:Hc.
    + split; [by exists c, r | by eexists].
    + split; [by intros [? ?]|]. intros (c' & r' & [= <- <-] & Hc').
      congruence.
Qed.

(** The scan stops at the first token that fails the test and keeps,
    in lower case, the tokens before it. *)
Lemma cmdsOf_app (words rest : list string) :
  Forall (λ a, is_Some (matchCommandWord (toLowerCase a))) words ->
  match rest with
  | [] => True
  | a :: _ => matchCommandWord (toLowerCase a) = None
  end ->
  cmdsOf (words ++ rest) = toLowerCase <$> words.
Proof.
  intros Hw Hr. induction Hw as [|a words [m Ha] _ IH]; cbn.
  - destruct rest as [|a rest]; [reflexivity|]. cbn. by rewrite Hr.
  - by rewrite Ha, IH.
Qed.

(** C6, the code at the failing input.  The expression is not anchored
    at its end: on [ab1] it matches the text [ab], so the token counts
    as a command word, the scan goes on past it, and it is not among
    the arguments the command receives. *)
Theorem scan_accepts_trailing_characters :
  matchCommandWord (toLowerCase "ab1") = Some "ab"
  ∧ cmdsOf (mainArgsOf ["ab1"; "cwd"; "-v"]) = ["ab1"; "cwd"]
  ∧ cmdArgsOf ["ab1"; "cwd"; "-v"] = ["-v"]
  ∧ cmdsOf (mainArgsOf ["a.b"; "x=1"]) = ["a.b"; "x=1"].
Proof. repeat split. Qed.

(* ===================================================================== *)
(** ** The log level *)

Section LogLevel.
Import CliOptions.




















End LogLevel.

(* ===================================================================== *)
(** ** A fresh configuration for each REPL line *)

Section Repl.
Variable app : App.

Lemma mainCatch_world (e : JsError) (w : World) :
  (mainCatch app e w).1.1 = w.
Proof.
  unfold mainCatch. destruct (String.eqb (name e) "Error");
    [destruct (errno e)|]; reflexivity.
Qed.

Lemma mainTry_config (argv : list string) (w : World) :
  configAfter (mainTry app argv (cmdsOf (mainArgsOf argv)) w)
    = config (context w).
Proof.
  rewrite mainTry_unfold.
  destruct (findCommandClass app _ _) as [e|found]; [reflexivity|].
  cbn zeta. destruct (foundCmdClass found) as [cls|]; [|reflexivity].
  destruct (construct cls _); [reflexivity|].
  destruct (run cls _ _); reflexivity.
Qed.

(** [main] leaves in the context the configuration the parser made, or
    the one it found when the parser throws. *)
Lemma main_config (argv : list string) (w : World) :
  configAfter (main app argv w)
    = match parseOptions app argv (config (context w)) with
      | inr cfg => cfg
      | inl _ => config (context w)
      end.
Proof.
  rewrite main_unfold.
  destruct (parseOptions app argv (config (context w))) as [e|cfg];
    [reflexivity|].
  destruct (truthy (cfg !! "isVersion")).
  { destruct (package (context w)); reflexivity. }
  destruct (emptyOrHelp argv cfg); [reflexivity|].
  pose proof (mainTry_config argv (atTry argv cfg w)) as Htry.
  unfold tryCatch.
  destruct (mainTry app argv _ _) as [[w1 t1] [code|e|code]];
    try exact Htry.
  pose proof (mainCatch_world e w1) as Hw.
  destruct (mainCatch app e w1) as [[w2 t2] r]. cbn in Hw. subst w2.
  exact Htry.
Qed.

Lemma fresh_without_cwd :
  truthy (initialiseConfiguration ∅ !! "cwd") = false.
Proof. reflexivity. Qed.

(** The [try] block of the evaluator up to the call of [main], in an
    initialised class and on a context that holds its package. *)
Lemma initialiseContext_given {B} (ctx : Context) (progName : string)
    (k : Context -> M B) (w : World) :
  isInitialised w = true ->
  is_Some (package ctx) ->
  ∃ w0,
    config (context w0)
      = <["cwd" := VStr (procCwd w)]> (initialiseConfiguration ∅)
    ∧ (initialiseContext app (Some ctx) progName None ≫= k) w
      = prepend [NewLogger (Some (VStr defaultLogLevel))]
          (k (context w0) w0).
Proof.
  intros Hi [p Hp]. eexists. split; cycle 1.
  - unfold initialiseContext. repeat monad_step.
    rewrite Hi. repeat monad_step. cbn [default]. unfold id.
    rewrite Hp, fresh_without_cwd. repeat monad_step.
    reflexivity.
  - reflexivity.
Qed.

(** The evaluator leaves in the context what the parser makes of the
    line's tokens and of the fresh configuration. *)
Lemma replEvaluatorCallback_config (cmdLine : string) (ctx : Context)
    (w : World) :
  isInitialised w = true ->
  is_Some (package ctx) ->
  configAfter (replEvaluatorCallback app cmdLine ctx w)
    = match parseOptions app (splitSpaces (trim cmdLine)) (replConfig w) with
      | inr cfg => cfg
      | inl _ => replConfig w
      end.
Proof.
  intros Hi Hp. unfold replEvaluatorCallback, tryCatch.
  rewrite bind_getWorld.
  destruct (initialiseContext_given ctx (selfProgramName w)
              (λ _, assignConfig "isInteractive" (VBool true) ;;
                    assignConfig "invokedFromCli" (VBool true) ;;
                    construct_app app ;;
                    main app (splitSpaces (trim cmdLine)) ;;
                    emit (ReplCallback None)) w Hi Hp)
    as (w0 & Hcfg & ->).
  unfold assignConfig, construct_app.
  rewrite !bind_modify, bind_emit, prepend_prepend.
  set (w1 := withContext _ (withContext _ w0)).
  pose proof (main_config (splitSpaces (trim cmdLine)) w1) as Hm.
  assert (config (context w1) = replConfig w) as Hw1.
  { unfold w1, replConfig. cbn. by rewrite Hcfg. }
  rewrite Hw1 in Hm. unfold mbind, M_bind, emit.
  destruct (main app _ w1) as [[w2 t2] [code|e|code]]; exact Hm.
Qed.

End Repl.

(** C9. A line given to the REPL evaluator is parsed into a
    configuration built from a new object: whatever configuration,
    commands and full commands the context holds from an earlier line,
    the configuration left is what the parser makes of the line's tokens
    and of the freshly initialised configuration, and so is the same for
    any two contexts. *)
Theorem repl_configuration_fresh (app : App) (cmdLine : string)
    (w : World) (ctx1 ctx2 : Context) :
  isInitialised w = true ->
  is_Some (package ctx1) ->
  is_Some (package ctx2) ->
  configAfter (replEvaluatorCallback app cmdLine ctx1 w)
    = configAfter (replEvaluatorCallback app cmdLine ctx2 w)
  ∧ configAfter (replEvaluatorCallback app cmdLine ctx1 w)
    = match parseOptions app (splitSpaces (trim cmdLine)) (replConfig w) with
      | inr cfg => cfg
      | inl _ => replConfig w
      end.
Proof.
  intros Hi H1 H2.
  by rewrite !replEvaluatorCallback_config.
Qed.

Lemma repl_configuration_fresh_witness :
  let w := Xtest.world ["-i"] in
  let r1 := replEvaluatorCallback Xtest.xtest " cwd  -v " (context w) w in
  let r2 := replEvaluatorCallback Xtest.xtest " cwd  -v " Xtest.usedContext w in
  configAfter r1 = configAfter r2
  ∧ configAfter r1
    = <["logLevel" := VStr "info"]>
        (<["verboseCount" := VNum 1]> (replConfig w)).
Proof.
  refine (repl_configuration_fresh Xtest.xtest " cwd  -v "
            (Xtest.world ["-i"]) (context (Xtest.world ["-i"]))
            Xtest.usedContext eq_refl _ _); by eexists.
Defined.

(* ===================================================================== *)
(** ** Errors caught by [start] *)

(** C10. An error that escapes [doStart] is classified by [start]: its
    message is logged at error severity when its name is [Error], its
    stack is written with [console.error] otherwise; in both cases the
    process exits with the error's [exitCode], or with 1 when it has
    none, never with the fixed code 2 of [main]. *)
Theorem start_exit_code (app : App) (w w1 : World) (t : list Event)
    (e : JsError) :
  doStart app w = (w1, t, Throw e) ->
  start app w
    = (w1,
       NewLogger None :: t ++
       [if String.eqb (name e) "Error" then Log LError (message e)
        else ConsoleError (stack e)],
       Exit (default 1 (exitCode e))).
Proof.
  intros Hd. unfold start.
  rewrite (tryCatch_throw _ _ w w1 (NewLogger None :: t) e).
  - unfold startCatch. destruct (String.eqb (name e) "Error");
      rewrite bind_emit; reflexivity.
  - by rewrite bind_emit, Hd.
Qed.

Lemma start_exit_code_witness :
  ∃ w1 t,
    start (Xtest.appWithoutPackage Xtest.jsonError) (Xtest.coldWorld ["cwd"])
    = (w1,
       NewLogger None :: t ++
       [ConsoleError "SyntaxError: Unexpected token"],
       Exit 1).
Proof.
  eexists _, _.
  apply (start_exit_code (Xtest.appWithoutPackage Xtest.jsonError)
           (Xtest.coldWorld ["cwd"]) _ _ Xtest.jsonError).
  vm_compute. reflexivity.
Defined.

(* ===================================================================== *)
(** ** Further properties of [main] *)

Section MainMore.
Variable app : App.

Lemma bind_normal {A B} (m : M A) (k : A -> M B) (w w1 : World)
    (t : list Event) (a : A) :
  m w = (w1, t, Normal a) -> (m ≫= k) w = prepend t (k a w1).
Proof.
  intros Hm. unfold mbind, M_bind. rewrite Hm.
  by destruct (k a w1) as [[w2 t2] r].
Qed.

Lemma bind_thrown {A B} (m : M A) (k : A -> M B) (w w1 : World)
    (t : list Event) (e : JsError) :
  m w = (w1, t, Throw e) -> (m ≫= k) w = (w1, t, Throw e).
Proof. intros Hm. unfold mbind, M_bind. by rewrite Hm. Qed.

Lemma bind_exited {A B} (m : M A) (k : A -> M B) (w w1 : World)
    (t : list Event) (c : Z) :
  m w = (w1, t, Exit c) -> (m ≫= k) w = (w1, t, Exit c).
Proof. intros Hm. unfold mbind, M_bind. by rewrite Hm. Qed.

Lemma dispatch_main_event (t : list Event) :
  Forall (λ ev, isDispatchEvent ev = true) t ->
  Forall (λ ev, isMainEvent ev = true) t.
Proof.
  intros H. eapply Forall_impl; [exact H|].
  by intros [[] ?| | | | | | | | | | |].
Qed.

(** The [catch] clause returns a code, leaves the world alone and
    writes log, console and help events only. *)
Lemma mainCatch_outcome (e : JsError) (w : World) :
  ∃ t code,
    mainCatch app e w = (w, t, Normal code)
    ∧ Forall (λ ev, isMainEvent ev = true) t
    ∧ (∀ cmds, FindCommandClass cmds ∉ t).
Proof.
  unfold mainCatch. destruct (String.eqb (name e) "Error");
    [destruct (errno e)|]; eexists _, _;
    (split; [reflexivity|]); (split; [by repeat constructor|]);
    intros cmds Hin; apply list_elem_of_In in Hin; cbn in Hin;
    intuition discriminate.
Qed.

(** The [try] block with its [catch] clause always returns a code; it
    assigns [ctx.fullCommands] when the resolver returned, and nothing
    else. *)
Lemma tried_outcome (argv : list string) (w : World) :
  ∃ t code,
    tryCatch (mainTry app argv (cmdsOf (mainArgsOf argv))) (mainCatch app) w
    = (match findCommandClass app (cmdsOf (mainArgsOf argv)) (rootPath w) with
       | inl _ => w
       | inr found =>
           withContext (setFullCommands (foundFullCommands found)) w
       end,
       FindCommandClass (cmdsOf (mainArgsOf argv)) :: t, Normal code)
    ∧ Forall (λ ev, isMainEvent ev = true) t
    ∧ (∀ cmds, FindCommandClass cmds ∉ t).
Proof.
  pose proof (mainTry_unfold app argv w) as Htry.
  assert (Hentry : ∀ found prog, ∃ t,
    tryEntry argv found prog = FindCommandClass (cmdsOf (mainArgsOf argv)) :: t
    ∧ Forall (λ ev, isDispatchEvent ev = true) t
    ∧ (∀ cmds, FindCommandClass cmds ∉ t)).
  { intros found prog. eexists. split; [reflexivity|]. split.
    - pose proof (tryEntry_dispatch argv found prog) as H.
      by inversion H.
    - intros cmds [Hin|Hin]%elem_of_cons; [done|].
      apply elem_of_app in Hin as [Hin|Hin].
      + apply list_elem_of_lookup in Hin as [i Hi].
        apply list_lookup_imap_Some in Hi as (x & _ & Hx). done.
      + by apply list_elem_of_singleton in Hin. }
  assert (Hno : ∀ (t1 t2 : list Event),
    (∀ cmds, FindCommandClass cmds ∉ t1) ->
    (∀ cmds, FindCommandClass cmds ∉ t2) ->
    ∀ cmds, FindCommandClass cmds ∉ (t1 ++ t2)).
  { intros t1 t2 H1 H2 cmds [Hin|Hin]%elem_of_app;
      [by apply (H1 cmds) | by apply (H2 cmds)]. }
  assert (Hlit : ∀ (l : list Event),
    Forall (λ ev, isDispatchEvent ev = true) l ->
    (∀ cmds, In (FindCommandClass cmds) l -> False) ->
    Forall (λ ev, isMainEvent ev = true) l
    ∧ (∀ cmds, FindCommandClass cmds ∉ l)).
  { intros l Hl Hn. split; [by apply dispatch_main_event|].
    intros cmds Hin. apply list_elem_of_In in Hin. eauto. }
  destruct (findCommandClass app _ _) as [e|found].
  - rewrite (tryCatch_throw _ _ _ _ _ _ Htry).
    destruct (mainCatch_outcome e w) as (t & code & -> & Hm & Hn).
    exists t, code. by rewrite prepend_triple.
  - cbn zeta in Htry.
    destruct (Hentry found (programName (context w)))
      as (t0 & Ht0 & Hd0 & Hn0).
    rewrite Ht0 in Htry.
    destruct (foundCmdClass found) as [cls|].
    + destruct (construct cls _) as [e|].
      * rewrite (tryCatch_throw _ _ _ _ _ _ Htry).
        destruct (mainCatch_outcome e
                    (withContext (setFullCommands (foundFullCommands found)) w))
          as (t & code & -> & Hm & Hn).
        exists ((t0 ++ [NewCommand]) ++ t), code.
        split; [by rewrite prepend_triple|].
        destruct (Hlit [NewCommand]) as [H1 H2];
          [by repeat constructor | cbn; intuition discriminate |].
        split.
        -- repeat (apply Forall_app; split); auto using dispatch_main_event.
        -- auto.
      * destruct (run cls _ _) as [e|code].
        -- rewrite (tryCatch_throw _ _ _ _ _ _ Htry).
           destruct (mainCatch_outcome e
                       (withContext
                          (setFullCommands (foundFullCommands found)) w))
             as (t & code & -> & Hm & Hn).
           exists ((t0 ++ [NewCommand; RunCommand (cmdArgsOf argv)]) ++ t),
             code.
           split; [by rewrite prepend_triple|].
           destruct (Hlit [NewCommand; RunCommand (cmdArgsOf argv)])
             as [H1 H2];
             [by repeat constructor | cbn; intuition discriminate |].
           split.
           ++ repeat (apply Forall_app; split);
                auto using dispatch_main_event.
           ++ auto.
        -- rewrite (tryCatch_normal _ _ _ _ _ _ Htry).
           eexists _, code. split; [reflexivity|].
           destruct (Hlit
             [NewCommand; RunCommand (cmdArgsOf argv);
              Log LDebug
                (invocation (programName (context w))
                   (foundFullCommands found)
                 +:+ "- returned " +:+ pretty code)]) as [H1 H2];
             [by repeat constructor | cbn; intuition discriminate |].
           split.
           ++ apply Forall_app; split; auto using dispatch_main_event.
           ++ auto.
    + rewrite (tryCatch_throw _ _ _ _ _ _ Htry).
      destruct (mainCatch_outcome
                  (typeError "CmdDerivedClass is not a constructor")
                  (withContext (setFullCommands (foundFullCommands found)) w))
        as (t & code & -> & Hm & Hn).
      exists (t0 ++ t), code.
      split; [by rewrite prepend_triple|]. split.
      * apply Forall_app; split; auto using dispatch_main_event.
      * auto.
Qed.

Lemma mainEntry_no_resolution (argv cmds : list string) :
  FindCommandClass cmds ∉ mainEntry app argv.
Proof.
  intros Hin. pose proof (mainEntry_logs app argv) as Hl.
  rewrite Forall_forall in Hl. by destruct (Hl _ Hin).
Qed.

End MainMore.

(** X2. When the command is resolved, built and run without a throw,
    [main] returns the code [run] returned, unchanged, after logging it
    at debug level; [ctx.fullCommands] holds the resolver's full
    names. *)
Theorem main_passes_code (app : App) (argv : list string) (w : World)
    (cfg : gmap string JsVal) (found : Found) (cls : CmdClass) (code : Z) :
  let ctx := commandContext found (atTry argv cfg w) in
  parseOptions app argv (config (context w)) = inr cfg ->
  truthy (cfg !! "isVersion") = false ->
  emptyOrHelp argv cfg = false ->
  findCommandClass app (cmdsOf (mainArgsOf argv)) (rootPath w) = inr found ->
  foundCmdClass found = Some cls ->
  construct cls ctx = None ->
  run cls ctx (cmdArgsOf argv) = inr code ->
  main app argv w
  = (withContext (setFullCommands (foundFullCommands found))
       (atTry argv cfg w),
     mainEntry app argv ++ tryEntry argv found (programName (context w)) ++
     [NewCommand; RunCommand (cmdArgsOf argv);
      Log LDebug
        (invocation (programName (context w)) (foundFullCommands found)
         +:+ "- returned " +:+ pretty code)],
     Normal code).
Proof.
  intros ctx Hp Hv Hh Hf Hc Hn Hr. rewrite main_unfold, Hp, Hv, Hh.
  pose proof (mainTry_unfold app argv (atTry argv cfg w)) as Htry.
  change (rootPath (atTry argv cfg w)) with (rootPath w) in Htry.
  rewrite Hf in Htry. cbn zeta in Htry. rewrite Hc in Htry.
  fold ctx in Htry. rewrite Hn, Hr in Htry.
  by rewrite (tryCatch_normal _ _ _ _ _ _ Htry).
Qed.

Lemma main_passes_code_witness :
  let argv := ["CWD"; "-q"; "out"] in
  let w := Xtest.world argv in
  let found := {| foundCmdClass := Some Xtest.Cwd;
                  foundFullCommands := ["cwd"] |} in
  main Xtest.xtest argv w
  = (withContext (setFullCommands ["cwd"])
       (atTry argv (config (context w)) w),
     mainEntry Xtest.xtest argv ++ tryEntry argv found "xtest" ++
     [NewCommand; RunCommand ["-q"; "out"];
      Log LDebug "'xtest cwd' - returned 0"],
     Normal 0).
Proof.
  apply (main_passes_code Xtest.xtest ["CWD"; "-q"; "out"]
           (Xtest.world ["CWD"; "-q"; "out"])
           (config (context (Xtest.world ["CWD"; "-q"; "out"])))
           {| foundCmdClass := Some Xtest.Cwd;
              foundFullCommands := ["cwd"] |}
           Xtest.Cwd 0); reflexivity.
Defined.

(** X3. The statements of [main] itself assign three properties of the
    context only: [config], through [parseOptions], [commands] and
    [fullCommands].  None of them assigns the process, the static
    properties of the class or the rest of the context, on any of the
    paths of [main].  What the help object and the command write
    through the context they are handed is no part of this. *)
Theorem main_frame (app : App) (argv : list string) (w : World) :
  let w' := (main app argv w).1.1 in
  procArgv w' = procArgv w
  ∧ procCwd w' = procCwd w
  ∧ isInitialised w' = isInitialised w
  ∧ rootPath w' = rootPath w
  ∧ selfProgramName w' = selfProgramName w
  ∧ programName (context w') = programName (context w)
  ∧ cmdPath (context w') = cmdPath (context w)
  ∧ processCwd (context w') = processCwd (context w)
  ∧ processArgv (context w') = processArgv (context w)
  ∧ ctxRootPath (context w') = ctxRootPath (context w)
  ∧ package (context w') = package (context w).
Proof.
  cbv zeta. rewrite main_unfold.
  destruct (parseOptions app argv (config (context w))) as [e|cfg];
    [done|].
  destruct (truthy (cfg !! "isVersion")).
  { destruct (package (context w)) eqn:Hpk; cbn; by rewrite ?Hpk. }
  destruct (emptyOrHelp argv cfg); [done|].
  destruct (tried_outcome app argv (atTry argv cfg w))
    as (t & code & -> & _).
  change (rootPath (atTry argv cfg w)) with (rootPath w).
  by destruct (findCommandClass app _ _).
Qed.

(** X4. Once the options are parsed, [main] leaves in the context the
    configuration the parser made.  Unless the version flag is set it
    saves the leading words, in lower case, in [ctx.commands]; it
    assigns [ctx.fullCommands] only when the resolver is called and
    returns. *)
Theorem main_records_commands (app : App) (argv : list string)
    (w : World) (cfg : gmap string JsVal) :
  parseOptions app argv (config (context w)) = inr cfg ->
  let ctx' := context (main app argv w).1.1 in
  config ctx' = cfg
  ∧ commands ctx'
    = (if truthy (cfg !! "isVersion") then commands (context w)
       else Some (cmdsOf (mainArgsOf argv)))
  ∧ fullCommands ctx'
    = (if truthy (cfg !! "isVersion") || emptyOrHelp argv cfg
       then fullCommands (context w)
       else match findCommandClass app (cmdsOf (mainArgsOf argv))
                    (rootPath w) with
            | inr found => Some (foundFullCommands found)
            | inl _ => fullCommands (context w)
            end).
Proof.
  intros Hp. cbv zeta. rewrite main_unfold, Hp.
  destruct (truthy (cfg !! "isVersion")).
  { by destruct (package (context w)). }
  destruct (emptyOrHelp argv cfg); [done|].
  destruct (tried_outcome app argv (atTry argv cfg w))
    as (t & code & -> & _).
  change (rootPath (atTry argv cfg w)) with (rootPath w).
  by destruct (findCommandClass app _ _).
Qed.

Lemma main_records_commands_witness :
  let argv := ["Cwd"; "-v"] in
  let w := Xtest.world argv in
  let cfg := <["logLevel" := VStr "info"]>
               (<["verboseCount" := VNum 1]> (config (context w))) in
  let ctx' := context (main Xtest.xtest argv w).1.1 in
  config ctx' = cfg
  ∧ commands ctx' = Some ["cwd"]
  ∧ fullCommands ctx' = Some ["cwd"].
Proof.
  apply (main_records_commands Xtest.xtest ["Cwd"; "-v"]
           (Xtest.world ["Cwd"; "-v"])).
  reflexivity.
Defined.

(** X5. [main] calls the resolver exactly when the options were parsed,
    the version flag is not set and the help branch is not taken; it
    then passes it the leading words in lower case. *)
Theorem main_resolves_iff (app : App) (argv cmds : list string)
    (w : World) :
  FindCommandClass cmds ∈ traceOf (main app argv w)
  ↔ cmds = cmdsOf (mainArgsOf argv)
    ∧ ∃ cfg, parseOptions app argv (config (context w)) = inr cfg
             ∧ truthy (cfg !! "isVersion") = false
             ∧ emptyOrHelp argv cfg = false.
Proof.
  rewrite main_unfold.
  pose proof (mainEntry_no_resolution app argv cmds) as He.
  destruct (parseOptions app argv (config (context w))) as [e|cfg].
  { split; [done | by intros (_ & ? & ? & _)]. }
  destruct (truthy (cfg !! "isVersion")) eqn:Hv.
  { split.
    - destruct (package (context w)); unfold traceOf; cbn [fst snd];
        [|done].
      intros [Hin|Hin]%elem_of_app; [done|].
      by apply list_elem_of_singleton in Hin.
    - intros (_ & cfg' & [= <-] & Hv' & _). congruence. }
  destruct (emptyOrHelp argv cfg) eqn:Hh.
  { split.
    - unfold traceOf; cbn [fst snd].
      intros [Hin|Hin]%elem_of_app; [done|].
      apply list_elem_of_In in Hin. cbn in Hin. intuition discriminate.
    - intros (_ & cfg' & [= <-] & _ & Hh'). congruence. }
  destruct (tried_outcome app argv (atTry argv cfg w))
    as (t & code & -> & _ & Hn).
  unfold traceOf, prepend. cbn [fst snd]. split.
  - intros [Hin|Hin]%elem_of_app; [done|].
    apply elem_of_cons in Hin as [[= ->]|Hin]; [|by apply Hn in Hin].
    split; [reflexivity|]. by exists cfg.
  - intros [-> _]. apply elem_of_app. right. apply list_elem_of_here.
Qed.

(** X6. All that [main] does to the outside is in log calls, console
    output, the help and the calls into the resolver and the command:
    it never sets the level of a logger, creates one, starts a REPL or
    a server, or answers a REPL callback. *)
Theorem main_events (app : App) (argv : list string) (w : World) :
  Forall (λ ev, isMainEvent ev = true) (traceOf (main app argv w)).
Proof.
  rewrite main_unfold.
  pose proof (dispatch_main_event _ (mainEntry_dispatch app argv)) as He.
  destruct (parseOptions app argv (config (context w))) as [e|cfg];
    [done|].
  destruct (truthy (cfg !! "isVersion")).
  { destruct (package (context w)); [|done].
    apply Forall_app; split; [done | by repeat constructor]. }
  destruct (emptyOrHelp argv cfg).
  { apply Forall_app; split; [done | by repeat constructor]. }
  destruct (tried_outcome app argv (atTry argv cfg w))
    as (t & code & -> & Ht & _).
  apply Forall_app; split; [done|]. by constructor.
Qed.

(* ===================================================================== *)
(** ** The leading words and the case of the arguments *)

Lemma lowerChar_idem (c : ascii) : lowerChar (lowerChar c) = lowerChar c.
Proof. by destruct c as [[] [] [] [] [] [] [] []]. Qed.

Lemma isSpace_lowerChar (c : ascii) : isSpace (lowerChar c) = isSpace c.
Proof. by destruct c as [[] [] [] [] [] [] [] []]. Qed.

Lemma lowerChar_dash (c : ascii) :
  Ascii.eqb (lowerChar c) "-" = Ascii.eqb c "-".
Proof. by destruct c as [[] [] [] [] [] [] [] []]. Qed.

Lemma toLowerCase_idem (s : string) :
  toLowerCase (toLowerCase s) = toLowerCase s.
Proof.
  induction s as [|c s IH]; [reflexivity|].
  cbn. by rewrite lowerChar_idem, IH.
Qed.

Lemma trimStart_toLowerCase (s : string) :
  trimStart (toLowerCase s) = toLowerCase (trimStart s).
Proof.
  induction s as [|c s IH]; [reflexivity|].
  cbn. rewrite isSpace_lowerChar. by destruct (isSpace c).
Qed.

Lemma trimEnd_toLowerCase (s : string) :
  trimEnd (toLowerCase s) = toLowerCase (trimEnd s).
Proof.
  induction s as [|c s IH]; [reflexivity|].
  cbn. rewrite IH, isSpace_lowerChar.
  destruct (trimEnd s) as [|c' s']; cbn; [|reflexivity].
  by destruct (isSpace c).
Qed.

Lemma trim_toLowerCase (s : string) :
  trim (toLowerCase s) = toLowerCase (trim s).
Proof. unfold trim. by rewrite trimStart_toLowerCase, trimEnd_toLowerCase. Qed.

Lemma terminator_toLowerCase (a : string) :
  String.eqb (toLowerCase a) "--" = String.eqb a "--".
Proof.
  destruct a as [|c1 [|c2 [|c3 r]]]; cbn; try reflexivity.
  - by rewrite lowerChar_dash.
  - rewrite !lowerChar_dash. reflexivity.
  - rewrite !lowerChar_dash. reflexivity.
Qed.

Lemma mainArgsOf_toLowerCase (argv : list string) :
  mainArgsOf (toLowerCase <$> argv) = toLowerCase <$> mainArgsOf argv.
Proof.
  induction argv as [|a argv IH]; [reflexivity|].
  cbn. rewrite terminator_toLowerCase.
  destruct (String.eqb a "--"); [reflexivity|].
  cbn. by rewrite trim_toLowerCase, IH.
Qed.

Lemma cmdsOf_toLowerCase (l : list string) :
  cmdsOf (toLowerCase <$> l) = cmdsOf l.
Proof.
  induction l as [|a l IH]; [reflexivity|].
  cbn. rewrite toLowerCase_idem.
  destruct (matchCommandWord (toLowerCase a)); [by rewrite IH | reflexivity].
Qed.

(** X7. The leading words do not depend on the case the arguments were
    typed in; each of them is in lower case and begins with a letter
    [a]-[z], and there are no more of them than arguments before the
    first [--]. *)
Theorem cmds_case_insensitive (argv : list string) :
  cmdsOf (mainArgsOf (toLowerCase <$> argv)) = cmdsOf (mainArgsOf argv)
  ∧ Forall (λ word, toLowerCase word = word
                    ∧ ∃ c r, word = String c r ∧ isLowerLetter c = true)
      (cmdsOf (mainArgsOf argv))
  ∧ (length (cmdsOf (mainArgsOf argv)) <= length (mainArgsOf argv)
     <= length argv)%nat.
Proof.
  split; [|split].
  - by rewrite mainArgsOf_toLowerCase, cmdsOf_toLowerCase.
  - induction (mainArgsOf argv) as [|a l IH]; [constructor|].
    cbn. destruct (matchCommandWord (toLowerCase a)) as [m|] eqn:Hm;
      [|constructor].
    constructor; [|exact IH]. split; [apply toLowerCase_idem|].
    apply matchCommandWord_Some. by eexists.
  - split; [apply cmdsOf_length | apply mainArgsOf_length].
Qed.

(* ===================================================================== *)
(** ** The tokens of a REPL line *)

Lemma string_rev_app_not_nil (s acc : string) :
  s ≠ "" ∨ acc ≠ "" -> String.rev_app s acc ≠ "".
Proof.
  revert acc. induction s as [|c s IH]; intros acc H; cbn.
  - by destruct H.
  - apply IH. by right.
Qed.

Lemma string_rev_not_nil (s : string) : s ≠ "" -> String.rev s ≠ "".
Proof. intros H. apply string_rev_app_not_nil. by left. Qed.

Lemma spaceFree_rev_app (s acc : string) :
  spaceFree (String.rev_app s acc) = spaceFree s && spaceFree acc.
Proof.
  revert acc. induction s as [|c s IH]; intros acc; [reflexivity|].
  cbn. rewrite IH. cbn.
  destruct (isSpace c), (spaceFree s); reflexivity.
Qed.

Lemma spaceFree_rev (s : string) : spaceFree (String.rev s) = spaceFree s.
Proof.
  unfold String.rev. rewrite spaceFree_rev_app. cbn. apply andb_true_r.
Qed.

Lemma splitSpacesFrom_spaceFree (cur : string) (inSep : bool) (s : string) :
  spaceFree cur = true ->
  Forall (λ tok, spaceFree tok = true) (splitSpacesFrom cur inSep s).
Proof.
  revert cur inSep. induction s as [|c s IH]; intros cur inSep Hcur; cbn.
  - constructor; [by rewrite spaceFree_rev | constructor].
  - destruct (isSpace c) eqn:Hc.
    + destruct inSep; [by apply IH|].
      constructor; [by rewrite spaceFree_rev | by apply IH].
    + apply IH. cbn. by rewrite Hc, Hcur.
Qed.

(** The pieces are not empty when the text read so far is not, or a
    separator was just read and more follows, and the string ends
    clean. *)
Lemma splitSpacesFrom_nonempty (cur : string) (inSep : bool) (s : string) :
  endsClean s = true ->
  (if inSep then s ≠ "" else cur ≠ "") ->
  Forall (λ tok, tok ≠ "") (splitSpacesFrom cur inSep s).
Proof.
  revert cur inSep. induction s as [|c s IH]; intros cur inSep Hs Hst; cbn.
  - destruct inSep; [done|].
    constructor; [by apply string_rev_not_nil | constructor].
  - assert (Hrest : isSpace c = true -> s ≠ "" ∧ endsClean s = true).
    { intros Hc. destruct s as [|c' s']; [|done].
      cbn in Hs. by rewrite Hc in Hs. }
    assert (Hrest' : endsClean s = true).
    { destruct s as [|c' s']; [reflexivity | exact Hs]. }
    destruct (isSpace c) eqn:Hc.
    + destruct (Hrest eq_refl) as [Hne Hend].
      destruct inSep; [by apply IH|].
      constructor; [by apply string_rev_not_nil | by apply IH].
    + by apply IH.
Qed.

Lemma trimStart_blank (s : string) :
  if blank s then trimStart s = ""
  else ∃ c r, trimStart s = String c r ∧ isSpace c = false.
Proof.
  induction s as [|c s IH]; [reflexivity|].
  cbn. destruct (isSpace c) eqn:Hc; cbn; [exact IH | by exists c, s].
Qed.

Lemma trimEnd_endsClean (s : string) : endsClean (trimEnd s) = true.
Proof.
  induction s as [|c s IH]; [reflexivity|].
  cbn. destruct (trimEnd s) as [|c' s'] eqn:Ht.
  - destruct (isSpace c) eqn:Hc; [reflexivity|]. cbn. by rewrite Hc.
  - exact IH.
Qed.

Lemma trimEnd_head (c : ascii) (r : string) :
  isSpace c = false -> ∃ r', trimEnd (String c r) = String c r'.
Proof.
  intros Hc. cbn. destruct (trimEnd r); rewrite ?Hc; by eexists.
Qed.

(** X8. The tokens the REPL evaluator makes of a line,
    [cmdLine.trim().split(/\s+/)]: a line of white space only, or an
    empty one, gives one token, the empty string, and not an empty
    list; any other line gives tokens that are not empty and hold no
    white space. *)
Theorem repl_tokens (cmdLine : string) :
  if blank cmdLine
  then splitSpaces (trim cmdLine) = [""]
  else Forall (λ tok, tok ≠ "" ∧ spaceFree tok = true)
         (splitSpaces (trim cmdLine)).
Proof.
  pose proof (trimStart_blank cmdLine) as Hs. unfold trim.
  destruct (blank cmdLine).
  - by rewrite Hs.
  - destruct Hs as (c & r & -> & Hc).
    destruct (trimEnd_head c r Hc) as [r' Hr'].
    pose proof (trimEnd_endsClean (String c r)) as He. rewrite Hr' in *.
    apply Forall_and. split.
    + unfold splitSpaces. cbn [splitSpacesFrom]. rewrite Hc.
      apply splitSpacesFrom_nonempty; [|done].
      destruct r'; [reflexivity | exact He].
    + by apply splitSpacesFrom_spaceFree.
Qed.

(* ===================================================================== *)
(** ** The context initialiser *)

(** What [initialiseContext] does, case by case. *)
Lemma initialiseContext_unfold (app : App) (ctx : option Context)
    (progName : string) (cfg : option (gmap string JsVal)) (w : World) :
  initialiseContext app ctx progName cfg w =
  let given := default emptyContext ctx in
  let build (w1 : World) :=
    let w2 := withContext (λ _, builtContext w1 given progName) w1 in
    let finish (w3 : World) :=
      let w4 := withContext (setConfig (freshConfig w1 cfg)) w3 in
      (w4, [NewLogger (freshConfig w1 cfg !! "logLevel")],
       Normal (context w4)) in
    match package given with
    | Some _ => finish w2
    | None =>
        match readPackageJson app (rootPath w1) with
        | inl e => (w2, [], Throw e)
        | inr p => finish (withContext (setPackage p) w2)
        end
    end in
  if isInitialised w then build w
  else
    match doInitialise app with
    | inl e => (w, [], Throw e)
    | inr r =>
        match r with
        | Some (String _ _) => build (setInitialised (setRootPath r w))
        | _ =>
            (setRootPath r w, [],
             Throw (assertionError "mandatory rootPath not set"))
        end
    end.
Proof.
  assert (Hbuild : ∀ w1,
    (getWorld ≫= λ w : World,
       modify (withContext (λ _,
         {| programName := progName; cmdPath := procArgv w !! 1%nat;
            processCwd := procCwd w; processArgv := procArgv w;
            ctxRootPath := rootPath w;
            package := package (default emptyContext ctx);
            config := config (default emptyContext ctx);
            commands := commands (default emptyContext ctx);
            fullCommands := fullCommands (default emptyContext ctx) |})) ;;
       match package (default emptyContext ctx) with
       | Some _ => mret tt
       | None =>
           p ← call (readPackageJson app (rootPath w));
           modify (withContext (setPackage p))
       end ;;
       modify (withContext (setConfig (freshConfig w cfg))) ;;
       emit (NewLogger (freshConfig w cfg !! "logLevel")) ;;
       getContext) w1
    = match package (default emptyContext ctx) with
      | Some _ =>
          (withContext (setConfig (freshConfig w1 cfg))
             (withContext
                (λ _, builtContext w1 (default emptyContext ctx) progName)
                w1),
           [NewLogger (freshConfig w1 cfg !! "logLevel")],
           Normal (context
             (withContext (setConfig (freshConfig w1 cfg))
                (withContext
                   (λ _, builtContext w1 (default emptyContext ctx) progName)
                   w1))))
      | None =>
          match readPackageJson app (rootPath w1) with
          | inl e =>
              (withContext
                 (λ _, builtContext w1 (default emptyContext ctx) progName)
                 w1, [], Throw e)
          | inr p =>
              (withContext (setConfig (freshConfig w1 cfg))
                 (withContext (setPackage p)
                    (withContext
                       (λ _,
                          builtContext w1 (default emptyContext ctx) progName)
                       w1)),
               [NewLogger (freshConfig w1 cfg !! "logLevel")],
               Normal (context
                 (withContext (setConfig (freshConfig w1 cfg))
                    (withContext (setPackage p)
                       (withContext
                          (λ _,
                             builtContext w1 (default emptyContext ctx)
                               progName)
                          w1)))))
          end
      end).
  { intros w1. repeat monad_step.
    destruct (package (default emptyContext ctx)) eqn:Hpk.
    - repeat monad_step. unfold builtContext. rewrite Hpk. reflexivity.
    - rewrite bind_assoc_run.
      destruct (readPackageJson app (rootPath w1)) as [e|p].
      + unfold builtContext. rewrite Hpk. reflexivity.
      + rewrite bind_call_inr. repeat monad_step.
        unfold builtContext. rewrite Hpk. reflexivity. }
  unfold initialiseContext. fold (freshConfig).
  rewrite bind_getWorld.
  destruct (isInitialised w).
  - rewrite bind_ret. cbv zeta. apply Hbuild.
  - unfold initialise. rewrite !bind_assoc_run.
    destruct (doInitialise app) as [e|r]; [reflexivity|].
    rewrite bind_call_inr, bind_assoc_run, bind_modify.
    destruct r as [[|c r]|].
    + reflexivity.
    + rewrite bind_ret, bind_modify. cbv zeta. apply Hbuild.
    + reflexivity.
Qed.

Lemma freshConfig_lookup (w : World) (cfg : option (gmap string JsVal)) :
  freshConfig w cfg !! "logLevel" = Some (VStr "warn")
  ∧ freshConfig w cfg !! "isInteractive" = Some (VBool false)
  ∧ freshConfig w cfg !! "interactiveServerPort" = Some VNull
  ∧ freshConfig w cfg !! "cwd"
    = (if truthy (default ∅ cfg !! "cwd") then default ∅ cfg !! "cwd"
       else Some (VStr (procCwd w)))
  ∧ (∀ key, key ≠ "logLevel" -> key ≠ "isInteractive" ->
            key ≠ "interactiveServerPort" -> key ≠ "cwd" ->
            freshConfig w cfg !! key = default ∅ cfg !! key).
Proof.
  unfold freshConfig, initialiseConfiguration, defaultLogLevel.
  set (c0 := default ∅ cfg).
  assert (Hcwd : <["logLevel" := VStr "warn"]>
                   (<["interactiveServerPort" := VNull]>
                      (<["isInteractive" := VBool false]> c0)) !! "cwd"
                 = c0 !! "cwd").
  { by rewrite !lookup_insert_ne. }
  cbv zeta. rewrite Hcwd.
  destruct (truthy (c0 !! "cwd")).
  - repeat split.
    + by rewrite lookup_insert_eq.
    + by rewrite lookup_insert_ne, lookup_insert_ne, lookup_insert_eq.
    + by rewrite lookup_insert_ne, lookup_insert_eq.
    + exact Hcwd.
    + intros key H1 H2 H3 H4. by rewrite !lookup_insert_ne.
  - repeat split.
    + by rewrite lookup_insert_ne, lookup_insert_eq.
    + by rewrite lookup_insert_ne, lookup_insert_ne, lookup_insert_ne,
        lookup_insert_eq.
    + by rewrite lookup_insert_ne, lookup_insert_ne, lookup_insert_eq.
    + by rewrite lookup_insert_eq.
    + intros key H1 H2 H3 H4. by rewrite !lookup_insert_ne.
Qed.

(** X9. What a successful [initialiseContext] leaves.  The class is
    initialised; the context returned is the one in place, with the
    program name given and a package; a package, saved commands and
    full commands the given context held are kept.  In the
    configuration the log level is [warn], [isInteractive] is false and
    the server port is null, whatever a supplied configuration held
    there; [cwd] is kept when it was set and is the process directory
    otherwise; every other key of a supplied configuration is kept.
    One logger is created, at level [warn]. *)
Theorem initialiseContext_result (app : App) (ctx : option Context)
    (progName : string) (cfg : option (gmap string JsVal))
    (w w1 : World) (t : list Event) (c : Context) :
  initialiseContext app ctx progName cfg w = (w1, t, Normal c) ->
  let given := default emptyContext ctx in
  c = context w1
  ∧ isInitialised w1 = true
  ∧ t = [NewLogger (Some (VStr "warn"))]
  ∧ programName c = progName
  ∧ is_Some (package c)
  ∧ (∀ p, package given = Some p -> package c = Some p)
  ∧ commands c = commands given
  ∧ fullCommands c = fullCommands given
  ∧ config c !! "logLevel" = Some (VStr "warn")
  ∧ config c !! "isInteractive" = Some (VBool false)
  ∧ config c !! "interactiveServerPort" = Some VNull
  ∧ config c !! "cwd"
    = (if truthy (default ∅ cfg !! "cwd") then default ∅ cfg !! "cwd"
       else Some (VStr (procCwd w)))
  ∧ (∀ key, key ≠ "logLevel" -> key ≠ "isInteractive" ->
            key ≠ "interactiveServerPort" -> key ≠ "cwd" ->
            config c !! key = default ∅ cfg !! key).
Proof.
  intros H given. rewrite initialiseContext_unfold in H. cbv zeta in H.
  fold given in H.
  assert (Hgoal : ∀ w0 : World,
    procCwd w0 = procCwd w -> isInitialised w0 = true ->
    match package given with
    | Some _ =>
        (withContext (setConfig (freshConfig w0 cfg))
           (withContext (λ _, builtContext w0 given progName) w0),
         [NewLogger (freshConfig w0 cfg !! "logLevel")],
         Normal (context
           (withContext (setConfig (freshConfig w0 cfg))
              (withContext (λ _, builtContext w0 given progName) w0))))
    | None =>
        match readPackageJson app (rootPath w0) with
        | inl e =>
            (withContext (λ _, builtContext w0 given progName) w0, [],
             Throw e)
        | inr p =>
            (withContext (setConfig (freshConfig w0 cfg))
               (withContext (setPackage p)
                  (withContext (λ _, builtContext w0 given progName) w0)),
             [NewLogger (freshConfig w0 cfg !! "logLevel")],
             Normal (context
               (withContext (setConfig (freshConfig w0 cfg))
                  (withContext (setPackage p)
                     (withContext (λ _, builtContext w0 given progName)
                        w0)))))
        end
    end = (w1, t, Normal c) ->
    c = context w1
    ∧ isInitialised w1 = true
    ∧ t = [NewLogger (Some (VStr "warn"))]
    ∧ programName c = progName
    ∧ is_Some (package c)
    ∧ (∀ p, package given = Some p -> package c = Some p)
    ∧ commands c = commands given
    ∧ fullCommands c = fullCommands given
    ∧ config c !! "logLevel" = Some (VStr "warn")
    ∧ config c !! "isInteractive" = Some (VBool false)
    ∧ config c !! "interactiveServerPort" = Some VNull
    ∧ config c !! "cwd"
      = (if truthy (default ∅ cfg !! "cwd") then default ∅ cfg !! "cwd"
         else Some (VStr (procCwd w)))
    ∧ (∀ key, key ≠ "logLevel" -> key ≠ "isInteractive" ->
              key ≠ "interactiveServerPort" -> key ≠ "cwd" ->
              config c !! key = default ∅ cfg !! key)).
  { intros w0 Hcwd Hinit Hrun.
    destruct (freshConfig_lookup w0 cfg) as (L1 & L2 & L3 & L4 & L5).
    rewrite Hcwd in L4.
    destruct (package given) as [p|] eqn:Hpk.
    - injection Hrun as <- <- <-. cbn. rewrite L1, Hpk.
      repeat split; try done; by eexists.
    - destruct (readPackageJson app (rootPath w0)) as [e|p]; [done|].
      injection Hrun as <- <- <-. cbn. rewrite L1.
      repeat split; try done; by eexists. }
  destruct (isInitialised w) eqn:Hi.
  - by apply (Hgoal w).
  - destruct (doInitialise app) as [e|[[|ch r]|]]; try done.
    by apply (Hgoal (setInitialised (setRootPath (Some (String ch r)) w))).
Qed.

Lemma initialiseContext_result_witness :
  let supplied := <["logLevel" := VStr "trace"]> {[ "colour" := VBool true ]} in
  let r := initialiseContext Xtest.xtest (Some Xtest.usedContext) "xtest"
             (Some supplied) (Xtest.coldWorld []) in
  let c := context r.1.1 in
  c = context r.1.1
  ∧ isInitialised r.1.1 = true
  ∧ r.1.2 = [NewLogger (Some (VStr "warn"))]
  ∧ programName c = "xtest"
  ∧ is_Some (package c)
  ∧ (∀ p, package Xtest.usedContext = Some p -> package c = Some p)
  ∧ commands c = Some []
  ∧ fullCommands c = Some ["cwd"]
  ∧ config c !! "logLevel" = Some (VStr "warn")
  ∧ config c !! "isInteractive" = Some (VBool false)
  ∧ config c !! "interactiveServerPort" = Some VNull
  ∧ config c !! "cwd" = Some (VStr "/home/user")
  ∧ (∀ key, key ≠ "logLevel" -> key ≠ "isInteractive" ->
            key ≠ "interactiveServerPort" -> key ≠ "cwd" ->
            config c !! key = supplied !! key).
Proof.
  exact (initialiseContext_result Xtest.xtest (Some Xtest.usedContext)
           "xtest"
           (Some (<["logLevel" := VStr "trace"]> {[ "colour" := VBool true ]}))
           (Xtest.coldWorld [])
           (initialiseContext Xtest.xtest (Some Xtest.usedContext) "xtest"
              (Some (<["logLevel" := VStr "trace"]>
                       {[ "colour" := VBool true ]}))
              (Xtest.coldWorld [])).1.1
           [NewLogger (Some (VStr "warn"))]
           (context
              (initialiseContext Xtest.xtest (Some Xtest.usedContext) "xtest"
                 (Some (<["logLevel" := VStr "trace"]>
                          {[ "colour" := VBool true ]}))
                 (Xtest.coldWorld [])).1.1)
           eq_refl).
Defined.

(* ===================================================================== *)
(** ** The start-up *)

Lemma startCatch_run (e : JsError) (w : World) :
  startCatch e w = (w, [startReport e], Exit (default 1 (exitCode e))).
Proof.
  unfold startCatch, startReport.
  destruct (String.eqb (name e) "Error"); by rewrite bind_emit.
Qed.

(** [doStart] up to the test of the server port. *)
Lemma doStart_parsed (app : App) (w w1 : World) (t1 : list Event)
    (ctx : Context) :
  initialiseContext app None
    (beforeDot (basename app (default "" (procArgv w !! 1%nat)))) None
    (namedWorld app w) = (w1, t1, Normal ctx) ->
  doStart app w =
  match parseOptions app (procArgv w) (config ctx) with
  | inl e =>
      (w1,
       t1 ++
       [SetLogLevel (config ctx !! "logLevel");
        Log LVerbose (from_option description "" (package ctx));
        Log LDebug ("argv0: " +:+ default "" (procArgv w !! 1%nat))],
       Throw e)
  | inr cfg =>
      prepend (t1 ++ doStartLogs app w ctx cfg)
        (match cfg !! "interactiveServerPort" with
         | None | Some VNull =>
             if negb (truthy (cfg !! "isInteractive")) then
               prepend [Log LTrace (className app +:+ ".constructor()")]
                 ((main app (drop 2 (procArgv w)) ≫= processExit)
                    (withContext
                       (λ c, setConfig
                               (<["invokedFromCli" := VBool true]> (config c))
                               c)
                       (withContext (setConfig cfg) w1)))
             else
               (withContext (setConfig cfg) w1,
                [ReplStart
                   (beforeDot (basename app (default "" (procArgv w !! 1%nat)))
                    +:+ "> ");
                 Log LVerbose "doStart() returns"],
                Normal tt)
         | Some port =>
             (withContext (setConfig cfg) w1,
              [ConsoleLog
                 ("Listening on localhost:" +:+ toStr port +:+ "...");
               Listen port; Log LVerbose "doStart() returns"],
              Normal tt)
         end)
  end.
Proof.
  intros Hinit. unfold doStart.
  rewrite bind_getWorld. cbv zeta. rewrite bind_modify.
  fold (namedWorld app w).
  rewrite (bind_normal _ _ _ _ _ _ Hinit).
  repeat monad_step.
  destruct (parseOptions app (procArgv w) (config ctx)) as [e|cfg].
  - rewrite bind_call_inl. rewrite !prepend_prepend, prepend_pure.
    by rewrite <- !app_assoc.
  - rewrite bind_call_inr. repeat monad_step.
    rewrite !prepend_prepend. unfold doStartLogs.
    assert (Hlogs : ∀ (A : Type) (r : World * list Event * Completion A),
      prepend
        ((((((t1 ++ [SetLogLevel (config ctx !! "logLevel")]) ++
             [Log LVerbose (from_option description "" (package ctx))]) ++
            [Log LDebug ("argv0: " +:+ default "" (procArgv w !! 1%nat))]) ++
           [SetLogLevel (cfg !! "logLevel")]) ++
          imap (λ index arg,
            Log LDebug
              ("start arg" +:+ pretty index +:+ ": '" +:+ arg +:+ "'"))
            (procArgv w)) ++
         [Log LTrace (inspect app cfg)]) r
      = prepend
          (t1 ++
           ([SetLogLevel (config ctx !! "logLevel");
             Log LVerbose (from_option description "" (package ctx));
             Log LDebug ("argv0: " +:+ default "" (procArgv w !! 1%nat));
             SetLogLevel (cfg !! "logLevel")] ++
            imap (λ index arg,
              Log LDebug
                ("start arg" +:+ pretty index +:+ ": '" +:+ arg +:+ "'"))
              (procArgv w) ++
            [Log LTrace (inspect app cfg)])) r).
    { intros A r. f_equal. rewrite <- !app_assoc. reflexivity. }
    rewrite Hlogs. f_equal.
    destruct (cfg !! "interactiveServerPort") as [[]|];
      try (repeat monad_step; reflexivity).
    + destruct (truthy (cfg !! "isInteractive")); cbn [negb].
      * repeat monad_step. reflexivity.
      * unfold assignConfig, construct_app. repeat monad_step.
        reflexivity.
    + destruct (truthy (cfg !! "isInteractive")); cbn [negb].
      * repeat monad_step. reflexivity.
      * unfold assignConfig, construct_app. repeat monad_step.
        reflexivity.
Qed.

Lemma start_unfold (app : App) (w : World) :
  start app w =
  match doStart app w with
  | (w1, t, Throw e) =>
      (w1, NewLogger None :: t ++ [startReport e],
       Exit (default 1 (exitCode e)))
  | (w1, t, r) => (w1, NewLogger None :: t, r)
  end.
Proof.
  unfold start, tryCatch. rewrite bind_emit.
  destruct (doStart app w) as [[w1 t] [a|e|c]]; try reflexivity.
  unfold prepend. cbn [fst snd]. by rewrite startCatch_run.
Qed.

(** X10. For a process started on a script, so that [process.argv]
    holds the script path: in single-shot mode (no server port, not
    interactive) [start] always ends the process, with the code [main]
    returns, or, when [main] throws an error object, with the code the
    [catch] clause of [start] gives.  [main] is given [process.argv]
    without its first two entries, and runs on the configuration
    [doStart] has already parsed [process.argv] into, with
    [invokedFromCli] set. *)
Theorem start_single_shot (app : App) (w w1 w3 : World)
    (t1 t3 : list Event) (ctx : Context) (cfg : gmap string JsVal)
    (r : Completion Z) (script : string) :
  let w2 := withContext
              (λ c, setConfig
                      (<["invokedFromCli" := VBool true]> (config c)) c)
              (withContext (setConfig cfg) w1) in
  procArgv w !! 1%nat = Some script ->
  initialiseContext app None (beforeDot (basename app script)) None
    (namedWorld app w) = (w1, t1, Normal ctx) ->
  parseOptions app (procArgv w) (config ctx) = inr cfg ->
  isNullish (cfg !! "interactiveServerPort") = true ->
  truthy (cfg !! "isInteractive") = false ->
  main app (drop 2 (procArgv w)) w2 = (w3, t3, r) ->
  config (context w2) = <["invokedFromCli" := VBool true]> cfg
  ∧ start app w
    = (w3,
       NewLogger None ::
       (t1 ++ doStartLogs app w ctx cfg) ++
       Log LTrace (className app +:+ ".constructor()") :: t3 ++
       match r with
       | Throw e => [startReport e]
       | _ => []
       end,
       Exit match r with
            | Normal code => code
            | Throw e => default 1 (exitCode e)
            | Exit code => code
            end).
Proof.
  intros w2 Hscript Hinit Hparse Hport Hint Hmain. split; [reflexivity|].
  assert (default "" (procArgv w !! 1%nat) = script) as Hs
    by (by rewrite Hscript).
  rewrite <- Hs in Hinit.
  rewrite start_unfold, (doStart_parsed app w w1 t1 ctx Hinit), Hparse.
  rewrite Hint. cbn [negb]. fold w2.
  assert ((main app (drop 2 (procArgv w)) ≫= processExit) w2
          = (w3, t3, match r return Completion unit with
                     | Normal code => Exit code
                     | Throw e => Throw e
                     | Exit code => Exit code
                     end)) as Hrun.
  { destruct r as [code|e|code].
    - rewrite (bind_normal _ _ _ _ _ _ Hmain).
      unfold processExit, prepend. cbn. by rewrite app_nil_r.
    - by rewrite (bind_thrown _ _ _ _ _ _ Hmain).
    - by rewrite (bind_exited _ _ _ _ _ _ Hmain). }
  destruct (cfg !! "interactiveServerPort") as [[]|]; try done;
    rewrite Hrun; destruct r as [code|e|code];
    unfold prepend; cbn [fst snd];
    rewrite <- ?app_assoc, ?app_nil_r; reflexivity.
Qed.

Lemma start_single_shot_witness :
  let w := Xtest.coldWorld ["missing"; "-v"] in
  ∃ w3 t,
    start Xtest.xtest w = (w3, t, Exit 3)
    ∧ config (context w3)
      = <["invokedFromCli" := VBool true]>
          (<["logLevel" := VStr "verbose"]>
             (<["verboseCount" := VNum 2]>
                (<["cwd" := VStr "/home/user"]>
                   (initialiseConfiguration ∅)))).
Proof.
  cbv zeta.
  pose (w := Xtest.coldWorld ["missing"; "-v"]).
  pose (i := initialiseContext Xtest.xtest None "xtest" None
               (namedWorld Xtest.xtest w)).
  pose (cfg := <["logLevel" := VStr "info"]>
                 (<["verboseCount" := VNum 1]>
                    (<["cwd" := VStr "/home/user"]>
                       (initialiseConfiguration ∅)))).
  pose (w2 := withContext
                (λ c, setConfig
                        (<["invokedFromCli" := VBool true]> (config c)) c)
                (withContext (setConfig cfg) i.1.1)).
  pose (m := main Xtest.xtest ["missing"; "-v"] w2).
  destruct (start_single_shot Xtest.xtest w i.1.1 m.1.1 i.1.2 m.1.2
              (context i.1.1) cfg (Normal 3) "/test/mock/bin/xtest.js"
              eq_refl eq_refl eq_refl eq_refl eq_refl eq_refl) as [_ H].
  eexists _, _. split; [exact H | reflexivity].
Defined.

(** X11. For a process started on a script, so that [process.argv]
    holds the script path: with a server port in the configuration, or
    with the interactive flag and none, [start] neither runs [main] nor
    ends the process: it starts the REPL with the prompt made of the
    program name, or listens on the port, which takes precedence over
    the single-shot mode, and returns. *)
Theorem start_interactive (app : App) (w w1 : World) (t1 : list Event)
    (ctx : Context) (cfg : gmap string JsVal) (script : string) :
  procArgv w !! 1%nat = Some script ->
  initialiseContext app None (beforeDot (basename app script)) None
    (namedWorld app w) = (w1, t1, Normal ctx) ->
  parseOptions app (procArgv w) (config ctx) = inr cfg ->
  isNullish (cfg !! "interactiveServerPort") = false
  ∨ truthy (cfg !! "isInteractive") = true ->
  start app w
  = (withContext (setConfig cfg) w1,
     NewLogger None ::
     (t1 ++ doStartLogs app w ctx cfg) ++
     match cfg !! "interactiveServerPort" with
     | None | Some VNull =>
         [ReplStart (beforeDot (basename app script) +:+ "> ")]
     | Some port =>
         [ConsoleLog ("Listening on localhost:" +:+ toStr port +:+ "...");
          Listen port]
     end ++ [Log LVerbose "doStart() returns"],
     Normal tt).
Proof.
  intros Hscript Hinit Hparse Hmode.
  assert (default "" (procArgv w !! 1%nat) = script) as Hs
    by (by rewrite Hscript).
  rewrite <- Hs in Hinit |- *.
  rewrite start_unfold, (doStart_parsed app w w1 t1 ctx Hinit), Hparse.
  destruct (cfg !! "interactiveServerPort") as [[]|];
    destruct Hmode as [Hport|Hint]; try done;
    rewrite ?Hint; reflexivity.
Qed.

Lemma start_interactive_witness :
  let w := Xtest.coldWorld ["-i"; "cwd"] in
  ∃ w1 t,
    start Xtest.xtest w
    = (w1, t ++ [ReplStart "xtest> "; Log LVerbose "doStart() returns"],
       Normal tt).
Proof.
  cbv zeta.
  pose (w := Xtest.coldWorld ["-i"; "cwd"]).
  pose (i := initialiseContext Xtest.xtest None "xtest" None
               (namedWorld Xtest.xtest w)).
  pose (cfg := <["isInteractive" := VBool true]>
                 (<["cwd" := VStr "/home/user"]>
                    (initialiseConfiguration ∅))).
  eexists _, (NewLogger None ::
              i.1.2 ++ doStartLogs Xtest.xtest w (context i.1.1) cfg).
  exact (start_interactive Xtest.xtest w i.1.1 i.1.2 (context i.1.1) cfg
           "/test/mock/bin/xtest.js"
           eq_refl eq_refl eq_refl (or_intror eq_refl)).
Defined.



(* ===================================================================== *)
(** ** The REPL evaluator *)

Section ReplMore.
Variable app : App.


End ReplMore.


(** The evaluator in an initialised class, on a context that holds its
    package: [main] runs on the fresh configuration, and its completion
    decides the answer. *)
Lemma repl_ready (app : App) (cmdLine : string) (ctx : Context)
    (w : World) :
  isInitialised w = true ->
  is_Some (package ctx) ->
  ∃ w0,
    config (context w0) = replConfig w
    ∧ is_Some (package (context w0))
    ∧ rootPath w0 = rootPath w
    ∧ replEvaluatorCallback app cmdLine ctx w
      = match main app (splitSpaces (trim cmdLine)) w0 with
        | (w2, t2, Normal _) =>
            (w2,
             [NewLogger (Some (VStr "warn"));
              Log LTrace (className app +:+ ".constructor()")] ++ t2 ++
             [ReplCallback None], Normal tt)
        | (w2, t2, Throw e) =>
            (w2,
             [NewLogger (Some (VStr "warn"));
              Log LTrace (className app +:+ ".constructor()")] ++ t2 ++
             [ReplCallback (Some e)], Normal tt)
        | (w2, t2, Exit c) =>
            (w2,
             [NewLogger (Some (VStr "warn"));
              Log LTrace (className app +:+ ".constructor()")] ++ t2,
             Exit c)
        end.
Proof.
  intros Hi [p Hp].
  pose proof (initialiseContext_unfold app (Some ctx) (selfProgramName w)
                None w) as Hu.
  cbv zeta in Hu. rewrite Hi in Hu. cbn [default] in Hu. unfold id in Hu.
  rewrite Hp in Hu.
  destruct (freshConfig_lookup w None) as (L1 & _).
  rewrite L1 in Hu.
  exists (withContext
            (λ c, setConfig (<["invokedFromCli" := VBool true]> (config c)) c)
            (withContext
               (λ c, setConfig (<["isInteractive" := VBool true]> (config c))
                       c)
               (withContext (setConfig (freshConfig w None))
                  (withContext
                     (λ _, builtContext w ctx (selfProgramName w)) w)))).
  split; [|split; [|split]]; cycle 3.
  - unfold replEvaluatorCallback, tryCatch. rewrite bind_getWorld.
    rewrite (bind_normal _ _ _ _ _ _ Hu).
    unfold assignConfig, construct_app. rewrite !bind_modify, bind_emit.
    rewrite prepend_prepend.
    match goal with
    | |- context [(main app ?args ≫= ?k) ?w0] =>
        destruct (main app args w0) as [[w2 t2] [code|e|c]] eqn:Hm
    end.
    + rewrite (bind_normal _ _ _ _ _ _ Hm). reflexivity.
    + rewrite (bind_thrown _ _ _ _ _ _ Hm). reflexivity.
    + rewrite (bind_exited _ _ _ _ _ _ Hm).
      unfold prepend. cbn [fst snd]. reflexivity.
  - unfold replConfig, freshConfig. cbn [default].
    rewrite fresh_without_cwd. reflexivity.
  - cbn. unfold builtContext. cbn. rewrite Hp. by eexists.
  - reflexivity.
Qed.



(** X16. A blank line given to the REPL evaluator does not take the
    empty-line branch of [main]: the line is one empty token, so that,
    with neither the version nor the help flag, the resolver is called
    with no words. *)
Theorem repl_blank_line (app : App) (cmdLine : string) (ctx : Context)
    (w : World) (cfg : gmap string JsVal) :
  blank cmdLine = true ->
  isInitialised w = true ->
  is_Some (package ctx) ->
  parseOptions app [""] (replConfig w) = inr cfg ->
  truthy (cfg !! "isVersion") = false ->
  truthy (cfg !! "isHelp") = false ->
  FindCommandClass [] ∈ traceOf (replEvaluatorCallback app cmdLine ctx w).
Proof.
  intros Hb Hi Hp Hparse Hv Hh.
  destruct (repl_ready app cmdLine ctx w Hi Hp)
    as (w0 & Hcfg & Hpk & _ & ->).
  pose proof (trimStart_blank cmdLine) as Ht. rewrite Hb in Ht.
  unfold trim. rewrite Ht. change (splitSpaces (trimEnd "")) with [""].
  rewrite main_unfold, Hcfg, Hparse, Hv.
  assert (emptyOrHelp [""] cfg = false) as ->.
  { unfold emptyOrHelp. cbn. by rewrite Hh. }
  destruct (tried_outcome app [""] (atTry [""] cfg w0))
    as (t & code & -> & _).
  unfold traceOf, prepend. cbn [fst snd].
  change (cmdsOf (mainArgsOf [""])) with (@nil string).
  set_solver.
Qed.

Lemma repl_blank_line_witness :
  FindCommandClass []
    ∈ traceOf (replEvaluatorCallback Xtest.xtest "   " Xtest.usedContext
                 (Xtest.world ["-i"])).
Proof.
  apply (repl_blank_line Xtest.xtest "   " Xtest.usedContext
           (Xtest.world ["-i"]) (replConfig (Xtest.world ["-i"])));
    try reflexivity.
  by eexists.
Defined.

(* ===================================================================== *)
(** ** The log colours *)

(** X17. [fixLogColours] removes the [bg] property of every style and
    nothing else: the keys of [log.style] and the falsy entries are as
    they were, and each style object keeps its other properties.
    Applying it again changes nothing. *)
Theorem fixLogColours_removes_bg
    (style : gmap string (option (gmap string JsVal))) :
  dom (fixLogColours style) = dom style
  ∧ (∀ key, style !! key = Some None ->
            fixLogColours style !! key = Some None)
  ∧ (∀ key styleObject,
       style !! key = Some (Some styleObject) ->
       ∃ fixed,
         fixLogColours style !! key = Some (Some fixed)
         ∧ fixed !! "bg" = None
         ∧ ∀ property, property ≠ "bg" ->
             fixed !! property = styleObject !! property)
  ∧ fixLogColours (fixLogColours style) = fixLogColours style.
Proof.
  unfold fixLogColours. split; [|split; [|split]].
  - apply dom_fmap_L.
  - intros key Hk. by rewrite lookup_fmap, Hk.
  - intros key styleObject Hk. eexists. split; [|split].
    + by rewrite lookup_fmap, Hk.
    + apply lookup_delete_eq.
    + intros property Hne. by rewrite lookup_delete_ne.
  - apply map_eq. intros key. rewrite !lookup_fmap.
    destruct (style !! key) as [[styleObject|]|]; cbn; [|done|done].
    do 2 f_equal. apply map_eq. intros property.
    destruct (decide (property = "bg")) as [->|Hne].
    + by rewrite !lookup_delete_eq.
    + by rewrite !lookup_delete_ne.
Qed.

(* ===================================================================== *)
(** ** The words and the arguments together *)

(** X18. The two loops of [main] cut the argument vector in two: the
    leading words are the first [n] arguments, trimmed and in lower
    case, none of them a [--]; the arguments passed to [run] are all
    the others, as they were given; and the scan is maximal: the first
    argument passed on, if any, is a [--] or fails the test of the
    words. *)
Theorem argv_partition (argv : list string) :
  let cmds := cmdsOf (mainArgsOf argv) in
  let n := length cmds in
  cmds = (λ a, toLowerCase (trim a)) <$> take n argv
  ∧ take n argv ++ cmdArgsOf argv = argv
  ∧ ("--" ∉ take n argv)
  ∧ match cmdArgsOf argv with
    | [] => True
    | a :: _ => a = "--" ∨ matchCommandWord (toLowerCase (trim a)) = None
    end.
Proof.
  cbv zeta. unfold cmdArgsOf. rewrite take_drop.
  induction argv as [|a argv (IH1 & _ & IH3 & IH4)].
  { repeat split. cbn. apply not_elem_of_nil. }
  cbn [mainArgsOf].
  destruct (String.eqb_spec a "--") as [->|Hne].
  { cbn. repeat split; [apply not_elem_of_nil | by left]. }
  cbn [cmdsOf].
  destruct (matchCommandWord (toLowerCase (trim a))) eqn:Hm.
  - cbn [length take drop fmap list_fmap]. repeat split.
    + by rewrite <- IH1.
    + by apply not_elem_of_cons.
    + exact IH4.
  - cbn. repeat split; [apply not_elem_of_nil | by right].
Qed.
